(** * Contact search cascade of the Planfix MCP server

    Shallow embedding of [src/tools/planfix_search_contact.ts] and
    verification of its specification.

    - JavaScript strings are modelled by [string]; one [ascii] stands for one
      code unit in the range 0..255 (Latin-1), on which [toLowerCase],
      [trim] and the regular-expression classes are given exactly.
    - [async] code is sequential here: one remote call completes before the
      next one starts, so a call is a step of a state-and-exception monad
      over the list of requests sent and the lines logged.
    - The remote CRM is an oracle: the outcome of the [i]-th request may
      depend on [i] and on the request. *)

From Stdlib Require Import String Ascii List ZArith NArith Bool Lia DecimalString.
Import ListNotations.
Local Open Scope string_scope.
Local Open Scope Z_scope.
Local Open Scope list_scope.

(** ** JavaScript strings *)

Module JsString.

(** [s.startsWith(p)] *)
Definition startsWith (s p : string) : bool := String.prefix p s.

(** [s.replace(/^@/, "")]: one leading [@] is removed, if there is one. *)
Definition stripLeadingAt (s : string) : string :=
  match s with
  | String "@"%char rest => rest
  | _ => s
  end.

Definition inRange (lo hi n : N) : bool := ((lo <=? n) && (n <=? hi))%N.

(** Case mapping of one code unit below 256: A-Z and the upper-case
    letters of Latin-1 (all of 0xC0..0xDE but the multiplication sign). *)
Definition lowerChar (c : ascii) : ascii :=
  let n := N_of_ascii c in
  if inRange 65 90 n || (inRange 192 222 n && negb (n =? 215)%N)
  then ascii_of_N (n + 32)
  else c.

(** [s.toLowerCase()] *)
Fixpoint toLowerCase (s : string) : string :=
  match s with
  | EmptyString => EmptyString
  | String c rest => String (lowerChar c) (toLowerCase rest)
  end.

(** White space and line terminators below 256: TAB, LF, VT, FF, CR,
    SPACE and NBSP. This is both what [trim] removes and what [\s]
    matches. *)
Definition isWhiteSpace (c : ascii) : bool :=
  let n := N_of_ascii c in
  inRange 9 13 n || (n =? 32)%N || (n =? 160)%N.

Definition isDigit (c : ascii) : bool := inRange 48 57 (N_of_ascii c).

Fixpoint trimStart (s : string) : string :=
  match s with
  | EmptyString => EmptyString
  | String c rest => if isWhiteSpace c then trimStart rest else s
  end.

Fixpoint trimEnd (s : string) : string :=
  match s with
  | EmptyString => EmptyString
  | String c rest =>
      match trimEnd rest with
      | EmptyString => if isWhiteSpace c then EmptyString else String c EmptyString
      | kept => String c kept
      end
  end.

(** [s.trim()] *)
Definition trim (s : string) : string := trimEnd (trimStart s).

(** [s.includes(needle)] *)
Fixpoint includes (s needle : string) : bool :=
  String.prefix needle s
  || match s with
     | EmptyString => false
     | String _ rest => includes rest needle
     end.

Fixpoint forallb (p : ascii -> bool) (s : string) : bool :=
  match s with
  | EmptyString => true
  | String c rest => p c && forallb p rest
  end.

Fixpoint existsb (p : ascii -> bool) (s : string) : bool :=
  match s with
  | EmptyString => false
  | String c rest => p c || existsb p rest
  end.

(** A string is truthy when it is not empty. *)
Definition truthy (s : string) : bool := negb (s =? "")%string.

(** [`${n}`] for an integer [n]. *)
Definition ofNumber (n : Z) : string := NilZero.string_of_int (Z.to_int n).

End JsString.

(** An optional string ([string | undefined]) in a condition. *)
Definition truthyStr (o : option string) : bool :=
  match o with
  | Some s => JsString.truthy s
  | None => false
  end.

(** A number ([number | null]) in a condition: [null] and [0] are falsy. *)
Definition truthyNum (o : option Z) : bool :=
  match o with
  | Some n => negb (n =? 0)
  | None => false
  end.

(** ** Phone sanitation (line 43) *)

(** The character class [[+\d\s\-()]]. *)
Definition phoneChar (c : ascii) : bool :=
  Ascii.eqb c "+" || JsString.isDigit c || JsString.isWhiteSpace c
  || Ascii.eqb c "-" || Ascii.eqb c "(" || Ascii.eqb c ")".

(** [/^[+\d\s\-()]{5,}$/.test(phone)] *)
Definition phonePattern (phone : string) : bool :=
  JsString.forallb phoneChar phone && (5 <=? String.length phone)%nat.

(** [if (phone && (phone.startsWith("@") || !pattern.test(phone))) phone = ""] *)
Definition sanitizePhone (phone : option string) : option string :=
  match phone with
  | Some p =>
      if JsString.truthy p
         && (JsString.startsWith p "@" || negb (phonePattern p))
      then Some ""
      else Some p
  | None => None
  end.

(** ** Data model *)

(** [PLANFIX_FIELD_IDS] of [config.js]: two numbers, 0 when not configured. *)
Module FieldIds.
Record t := make { telegramCustom : Z; telegram : Z }.
End FieldIds.

(** A custom-field value of a contact record: a string, or anything else. *)
Inductive FieldValue :=
| StringValue (s : string)
| OtherValue.

Module CustomFieldData.
(** [{ field: { id }, value }] *)
Record t := make { fieldId : Z; value : FieldValue }.
End CustomFieldData.

(** [ContactResponse] of [types.js], with the fields the tool reads. *)
Module Contact.
Record t := make {
  id : Z;
  name : option string;
  lastname : option string;
  telegram : option string;
  customFieldData : option (list CustomFieldData.t)
}.
End Contact.

(** The value of a filter: [string | number | boolean | string[]]. *)
Inductive FilterValue :=
| VString (s : string)
| VNumber (n : Z)
| VBoolean (b : bool)
| VStrings (l : list string).

Module Filter.
(** [FilterType] (lines 59-64) *)
Record t := make {
  type : Z;
  operator : string;
  value : option FilterValue;
  field : option Z
}.
End Filter.

(** The tool's input: the five optional strings of the base schema and the
    values of the custom fields the schema was extended with. *)
Module Args.
Record t := make {
  name : option string;
  nameTranslated : option string;
  phone : option string;
  email : option string;
  telegram : option string;
  custom : list (string * FilterValue)
}.
End Args.

(** [PlanfixSearchContactOutputSchema] (lines 27-35) *)
Module Result.
Record t := make {
  contactId : Z;
  url : option string;
  firstName : option string;
  lastName : option string;
  error : option string;
  found : bool;
  telegram : option string
}.
End Result.

(** The request of one attempt: [planfixRequest({ path, body })]. *)
Module Request.
Record t := make {
  path : string;
  offset : Z;
  pageSize : Z;
  filters : list Filter.t;
  fields : string
}.
End Request.

(** A thrown value: an [Error] with its message, or anything else. *)
Inductive Thrown :=
| ErrorObject (message : string)
| NotAnError.

(** [error instanceof Error ? error.message : "Unknown error"] *)
Definition errorMessage (error : Thrown) : string :=
  match error with
  | ErrorObject message => message
  | NotAnError => "Unknown error"
  end.

(** How a remote call ends: the promise rejects, or it resolves to
    [{ contacts?: [...] }]. *)
Inductive Outcome :=
| Rejects (error : Thrown)
| Resolves (contacts : option (list Contact.t)).

Definition Remote := nat -> Request.t -> Outcome.

(** The three lines the tool logs. *)
Inductive LogLine :=
| LogFilterError (errorMessage : string)
| LogTelegramMismatch (expected found : string)
| LogError (errorMessage : string).

(** ** The monad of the tool: requests sent, lines logged, exceptions *)

Record World := mkWorld { calls : list Request.t; logs : list LogLine }.

Inductive Completion (A : Type) :=
| Normal (a : A)
| Throw (e : Thrown).
Arguments Normal {A} a.
Arguments Throw {A} e.

Definition M (A : Type) : Type := World -> Completion A * World.

Definition ret {A} (a : A) : M A := fun w => (Normal a, w).

Definition bind {A B} (m : M A) (k : A -> M B) : M B :=
  fun w =>
    match m w with
    | (Normal a, w') => k a w'
    | (Throw e, w') => (Throw e, w')
    end.

Definition throw {A} (e : Thrown) : M A := fun w => (Throw e, w).

(** [try { body } catch (error) { handler }] *)
Definition tryCatch {A} (body : M A) (handler : Thrown -> M A) : M A :=
  fun w =>
    match body w with
    | (Normal a, w') => (Normal a, w')
    | (Throw e, w') => handler e w'
    end.

(** [log(line)]: fire and forget. *)
Definition log (line : LogLine) : M unit :=
  fun w => (Normal tt, mkWorld (calls w) (logs w ++ [line])).

(** [await planfixRequest(request)] against the oracle. *)
Definition planfixRequest (remote : Remote) (request : Request.t)
  : M (option (list Contact.t)) :=
  fun w =>
    let w' := mkWorld (calls w ++ [request]) (logs w) in
    match remote (length (calls w)) request with
    | Rejects error => (Throw error, w')
    | Resolves contacts => (Normal contacts, w')
    end.

Declare Scope tool_scope.
Delimit Scope tool_scope with tool.
Notation "x <- m ;; k" := (bind m (fun x => k))
  (at level 61, m at next level, right associativity) : tool_scope.
Notation "m ;;; k" := (bind m (fun _ => k))
  (at level 61, right associativity) : tool_scope.
Local Open Scope tool_scope.


(** The dictionary [filters] (lines 66-166): an entry may be [undefined]. *)
Module Filters.
Record t := make {
  byName : option Filter.t;
  byNameTranslated : option Filter.t;
  byPhone : option Filter.t;
  byEmail : option Filter.t;
  byTelegram : option Filter.t;
  byTelegramWithAt : option Filter.t;
  byTelegramOriginalCase : option Filter.t;
  byTelegramOriginalCaseWithAt : option Filter.t;
  byTelegramUrl : option Filter.t
}.
End Filters.

(** ** Sample configuration, collaborators and inputs *)

(** The configuration of the repository's tests: the built-in telegram
    field, no custom one. *)
Definition builtinConfig : FieldIds.t := FieldIds.make 0 131.

Definition exampleUrl (id : Z) : Completion string :=
  Normal ("https://example.com/contact/" ++ JsString.ofNumber id)%string.

(** A URL builder that throws. *)
Definition failingUrl (id : Z) : Completion string :=
  Throw (ErrorObject "account is not configured").

(** No custom fields are configured: the extender appends nothing. *)
Definition noCustomFields (filters : list Filter.t) (args : Args.t)
  : list Filter.t := filters.

Definition emptyWorld : World := mkWorld [] [].

(** The remote that answers call number [n] with [contact] and every other
    call with an empty list. *)
Definition answersAt (n : nat) (contact : Contact.t) : Remote :=
  fun i _ =>
    if Nat.eqb i n then Resolves (Some [contact]) else Resolves (Some []).

Definition johnDoe : Contact.t :=
  Contact.make 1 (Some "John") (Some "Doe") (Some "@JohnDoe") None.

Definition otherJohn : Contact.t :=
  Contact.make 5 (Some "John") (Some "Doe") (Some "@Other") None.

Definition plainJohn : Contact.t :=
  Contact.make 7 (Some "John") (Some "Doe") None None.

(** A record whose identifier is 0. *)
Definition contactZero : Contact.t :=
  Contact.make 0 (Some "No") (Some "Body") None None.

Definition emailOnly : Args.t :=
  Args.make None None None (Some "john@example.com") None [].

Definition namesAndTelegram : Args.t :=
  Args.make (Some "John Doe") (Some "Jon Dou") None None (Some "johndoe") [].

Definition telegramOnly : Args.t :=
  Args.make None None None None (Some "@SomeUser") [].

Definition badPhoneAndTelegram : Args.t :=
  Args.make None None (Some "@foo") None (Some "foo") [].

Definition nothingToSearchBy : Args.t :=
  Args.make (Some "Madonna") None (Some "abc") (Some "") None [].

Definition emailFilter : Filter.t :=
  Filter.make 4026 "equal" (Some (VString "john@example.com")) None.

(** Neither telegram field is configured. *)
Definition noTelegramConfig : FieldIds.t := FieldIds.make 0 0.

(** The custom telegram field 77 is configured. *)
Definition customConfig : FieldIds.t := FieldIds.make 77 0.

(** The remote that answers every call with an empty list. *)
Definition findsNothing : Remote := fun _ _ => Resolves (Some []).

(** The remote every call of which fails. *)
Definition alwaysFails : Remote := fun _ _ => Rejects (ErrorObject "API fail").





Definition exampleUrl_total id : exists url, exampleUrl id = Normal url :=
  ex_intro _ _ eq_refl.

(** ** The tool *)

Section Tool.

(** [PLANFIX_FIELD_IDS] of [config.js]. *)
Variable PLANFIX_FIELD_IDS : FieldIds.t.

(** [getContactUrl] of [helpers.js], the URL builder. The helper is not part
    of the tool: it is any function that returns a string or throws. *)
Variable getContactUrl : Z -> Completion string.

(** [extendFiltersWithCustomFields(filters, args, customFieldsConfig.contactFields, "contact")]
    of [lib/extendFiltersWithCustomFields.js]: the array it leaves in
    [filters]. *)
Variable extendFiltersWithCustomFields : list Filter.t -> Args.t -> list Filter.t.

Definition telegramCustom : Z := FieldIds.telegramCustom PLANFIX_FIELD_IDS.
Definition telegramBuiltin : Z := FieldIds.telegram PLANFIX_FIELD_IDS.

(** A configured field id in a condition: 0 is falsy. *)
Definition configured (fieldId : Z) : bool := negb (fieldId =? 0).

Definition fieldsBase : string :=
  "id,name,midname,lastname,email,phone,description,group".

(** [postBody.fields] (lines 52-56) *)
Definition postBodyFields : string :=
  if configured telegramCustom
  then fieldsBase ++ "," ++ JsString.ofNumber telegramCustom
  else if configured telegramBuiltin
       then fieldsBase ++ ",telegram"
       else fieldsBase.

(** [{ path: "contact/list", body: { ...postBody, filters: [filter] } }] *)
Definition requestFor (filter : Filter.t) : Request.t :=
  Request.make "contact/list" 0 100 [filter] postBodyFields.

(** The two shapes of a telegram filter (lines 89-100). *)
Definition customTelegramFilter (v : string) : Filter.t :=
  Filter.make 4101 "equal" (Some (VString v)) (Some telegramCustom).

Definition builtinTelegramFilter (v : string) : Filter.t :=
  Filter.make 4226 "equal" (Some (VString v)) None.

(** [telegram ? (telegramCustom ? {...} : telegram ? {...} : undefined) : undefined] *)
Definition telegramFilter (telegram : option string)
    (v : string -> string) : option Filter.t :=
  match telegram with
  | Some t =>
      if JsString.truthy t
      then if configured telegramCustom
           then Some (customTelegramFilter (v t))
           else if configured telegramBuiltin
                then Some (builtinTelegramFilter (v t))
                else None
      else None
  | None => None
  end.

(** [telegram && telegramCustom ? {...} : telegram && telegram ? {...} : undefined]
    (lines 103-117) *)
Definition telegramFilterWithAt (telegram : option string)
    (v : string -> string) : option Filter.t :=
  match telegram with
  | Some t =>
      if JsString.truthy t && configured telegramCustom
      then Some (customTelegramFilter (v t))
      else if JsString.truthy t && configured telegramBuiltin
           then Some (builtinTelegramFilter (v t))
           else None
  | None => None
  end.

(** [extractTelegramFromContact] (lines 176-188) *)
Definition extractTelegramFromContact (contact : Contact.t) : string :=
  if configured telegramCustom then
    let tgField :=
      match Contact.customFieldData contact with
      | Some data =>
          find (fun f => CustomFieldData.fieldId f =? telegramCustom) data
      | None => None
      end in
    match tgField with
    | Some f =>
        match CustomFieldData.value f with
        | StringValue s => JsString.toLowerCase (JsString.stripLeadingAt s)
        | OtherValue => ""
        end
    | None => ""
    end
  else if configured telegramBuiltin && truthyStr (Contact.telegram contact) then
    match Contact.telegram contact with
    | Some t => JsString.toLowerCase (JsString.stripLeadingAt t)
    | None => ""
    end
  else "".

(** The two variables the cascade assigns: [contactId] and [result]. *)
Record Vars := mkVars { contactId : option Z; result : option Result.t }.

Section Invocation.

Variable remote : Remote.
Variable args : Args.t.

(** [let { phone } = args] after the sanitation of line 43. *)
Definition phone : option string := sanitizePhone (Args.phone args).


Definition ensureLeadingAt (t : string) : string :=
  if JsString.startsWith t "@" then t else "@" ++ t.

(** [filters] (lines 66-166) *)
Definition filters : Filters.t :=
  let telegram := Args.telegram args in
  Filters.make
    (Some (Filter.make 4001 "equal" (option_map VString (Args.name args)) None))
    (Some (Filter.make 4001 "equal"
             (option_map VString (Args.nameTranslated args)) None))
    (Some (Filter.make 4003 "equal" (option_map VString phone) None))
    (Some (Filter.make 4026 "equal" (option_map VString (Args.email args)) None))
    (telegramFilter telegram
       (fun t => JsString.toLowerCase (JsString.stripLeadingAt t)))
    (telegramFilterWithAt telegram
       (fun t => ("@" ++ JsString.toLowerCase (JsString.stripLeadingAt t))%string))
    (telegramFilter telegram JsString.stripLeadingAt)
    (telegramFilter telegram ensureLeadingAt)
    (telegramFilter telegram
       (fun t => ("https://t.me/" ++ JsString.stripLeadingAt t)%string)).

(** [customFilters] after the call of lines 168-174. *)
Definition customFilters : list Filter.t :=
  extendFiltersWithCustomFields [] args.

(** The three objects [searchWithFilter] returns. *)
Definition foundResult (contact : Contact.t) : Result.t :=
  let contactTelegram := extractTelegramFromContact contact in
  Result.make (Contact.id contact) None
    (Contact.name contact) (Contact.lastname contact) None true
    (if JsString.truthy contactTelegram then Some contactTelegram else None).

Definition notFoundResult : Result.t :=
  Result.make 0 None None None None false None.

Definition errorResult (message : string) : Result.t :=
  Result.make 0 None None None (Some message) false None.

(** [searchWithFilter] (lines 190-232) *)
Definition searchWithFilter (filter : Filter.t) : M Result.t :=
  tryCatch
    (contacts <- planfixRequest remote (requestFor filter);;
     match contacts with
     | Some (contact :: _) => ret (foundResult contact)
     | _ => ret notFoundResult
     end)
    (fun error =>
       let message := errorMessage error in
       log (LogFilterError message);;;
       ret (errorResult message)).

(** [result = await searchWithFilter(filter); contactId = result.contactId;] *)
Definition searchAndAssign (filter : Filter.t) : M Vars :=
  r <- searchWithFilter filter;;
  ret (mkVars (Some (Result.contactId r)) (Some r)).

(** [if (!contactId && filter) { result = ...; contactId = ...; }] *)
Definition attemptUnlessFound (filter : option Filter.t) (v : Vars) : M Vars :=
  match filter with
  | Some f => if negb (truthyNum (contactId v)) then searchAndAssign f else ret v
  | None => ret v
  end.

(** Lines 236-239. *)
Definition emailStage (v : Vars) : M Vars :=
  if truthyStr (Args.email args)
  then attemptUnlessFound (Filters.byEmail filters) v
  else ret v.

(** Lines 240-243. *)
Definition phoneStage (v : Vars) : M Vars :=
  if truthyStr phone
  then attemptUnlessFound (Filters.byPhone filters) v
  else ret v.

(** [name && name.trim().includes(" ")] *)
Definition hasInnerSpace (name : option string) : bool :=
  match name with
  | Some n => JsString.truthy n && JsString.includes (JsString.trim n) " "
  | None => false
  end.

(** The cross-check of lines 247-257, and of lines 267-277. *)
Definition telegramCrossCheck (v : Vars) : M Vars :=
  match Args.telegram args, contactId v, result v with
  | Some telegram, Some cid, Some r =>
      match Result.telegram r with
      | Some foundTelegram =>
          if JsString.truthy telegram && (0 <? cid)
             && JsString.truthy foundTelegram
          then
            let expectedTelegram :=
              JsString.toLowerCase (JsString.stripLeadingAt telegram) in
            if negb (expectedTelegram =? foundTelegram)%string
            then
              log (LogTelegramMismatch telegram foundTelegram);;;
              ret (mkVars None None)
            else ret v
          else ret v
      | None => ret v
      end
  | _, _, _ => ret v
  end.

(** Lines 244-258 for [name] and [filters.byName], lines 259-278 for
    [nameTranslated] and [filters.byNameTranslated]: the same block. *)
Definition crossCheckedStage (name : option string)
    (filter : option Filter.t) (v : Vars) : M Vars :=
  match filter with
  | Some f =>
      if negb (truthyNum (contactId v)) && hasInnerSpace name
      then
        v' <- searchAndAssign f;;
        telegramCrossCheck v'
      else ret v
  | None => ret v
  end.

Definition nameStage : Vars -> M Vars :=
  crossCheckedStage (Args.name args) (Filters.byName filters).

Definition nameTranslatedStage : Vars -> M Vars :=
  crossCheckedStage (Args.nameTranslated args)
    (Filters.byNameTranslated filters).

(** Lines 279-300. *)
Definition telegramStage (v : Vars) : M Vars :=
  if negb (truthyNum (contactId v)) && truthyStr (Args.telegram args)
  then
    v1 <- match Filters.byTelegram filters with
          | Some f => searchAndAssign f
          | None => ret v
          end;;
    v2 <- attemptUnlessFound (Filters.byTelegramWithAt filters) v1;;
    v3 <- attemptUnlessFound (Filters.byTelegramOriginalCase filters) v2;;
    v4 <- attemptUnlessFound (Filters.byTelegramOriginalCaseWithAt filters) v3;;
    attemptUnlessFound (Filters.byTelegramUrl filters) v4
  else ret v.

(** [for (const cf of customFilters) { if (contactId) break; ... }] *)
Fixpoint customLoop (cfs : list Filter.t) (v : Vars) : M Vars :=
  match cfs with
  | [] => ret v
  | cf :: rest =>
      if truthyNum (contactId v)
      then ret v
      else
        v' <- searchAndAssign cf;;
        customLoop rest v'
  end.

(** Lines 301-307. *)
Definition customStage (v : Vars) : M Vars :=
  if negb (truthyNum (contactId v))
     && negb (length customFilters =? 0)%nat
  then customLoop customFilters v
  else ret v.

(** [contactId || 0] *)
Definition orZero (cid : option Z) : Z :=
  match cid with
  | Some n => if n =? 0 then 0 else n
  | None => 0
  end.

(** Lines 308-318. *)
Definition finalize (v : Vars) : M Result.t :=
  let contactId := orZero (contactId v) in
  url <- (fun w => (getContactUrl contactId, w));;
  let firstName :=
    match result v with Some r => Result.firstName r | None => None end in
  let lastName :=
    match result v with Some r => Result.lastName r | None => None end in
  ret (Result.make contactId (Some url) firstName lastName None
         (0 <? contactId) None).

(** The six stages of the [try] block, lines 235-307. *)
Definition cascade : M Vars :=
  v <- emailStage (mkVars None None);;
  v <- phoneStage v;;
  v <- nameStage v;;
  v <- nameTranslatedStage v;;
  v <- telegramStage v;;
  customStage v.

(** The [catch] block, lines 319-328. *)
Definition outerCatch (error : Thrown) : M Result.t :=
  let message := errorMessage error in
  log (LogError message);;;
  ret (Result.make 0 None None None (Some message) false None).

(** [planfixSearchContact] (lines 37-329) *)
Definition planfixSearchContact : M Result.t :=
  tryCatch (v <- cascade;; finalize v) outerCatch.

End Invocation.

(** ** Notions of the specification *)

(** What one attempt yields, read off the outcome of its remote call. *)
Definition attemptResult (o : Outcome) : Result.t :=
  match o with
  | Rejects error => errorResult (errorMessage error)
  | Resolves (Some (contact :: _)) => foundResult contact
  | Resolves _ => notFoundResult
  end.

Definition attemptLogs (o : Outcome) : list LogLine :=
  match o with
  | Rejects error => [LogFilterError (errorMessage error)]
  | Resolves _ => []
  end.

(** The world after one attempt with [filter] whose call ended in [o]. *)
Definition afterAttempt (w : World) (filter : Filter.t) (o : Outcome) : World :=
  mkWorld (calls w ++ [requestFor filter]) (logs w ++ attemptLogs o).

(** The response of a call has a first contact with an identifier other
    than 0: what the cascade takes for a contact found ([!contactId]). *)
Definition yieldsContact (o : Outcome) : bool :=
  match o with
  | Resolves (Some (contact :: _)) => negb (Contact.id contact =? 0)
  | _ => false
  end.

(** The raw telegram value a record carries: that of the configured custom
    field if one is configured, else the built-in field if that one is. *)
Definition recordTelegramValue (contact : Contact.t) : option string :=
  if configured telegramCustom then
    match Contact.customFieldData contact with
    | Some data =>
        match find (fun f => CustomFieldData.fieldId f =? telegramCustom) data with
        | Some f =>
            match CustomFieldData.value f with
            | StringValue s => Some s
            | OtherValue => None
            end
        | None => None
        end
    | None => None
    end
  else if configured telegramBuiltin then Contact.telegram contact
  else None.

(** Lowercase with a leading [@] stripped. *)
Definition normalizeTelegram (s : string) : string :=
  JsString.toLowerCase (JsString.stripLeadingAt s).

(** The five telegram variants, in the order of the specification. *)
Definition telegramVariantValues (t : string) : list string :=
  [ JsString.toLowerCase (JsString.stripLeadingAt t);
    ("@" ++ JsString.toLowerCase (JsString.stripLeadingAt t))%string;
    JsString.stripLeadingAt t;
    (if JsString.startsWith t "@" then t else ("@" ++ t)%string);
    ("https://t.me/" ++ JsString.stripLeadingAt t)%string ].

(** A telegram filter targets the custom field if one is configured, else
    the built-in field. *)
Definition telegramFieldFilter (v : string) : Filter.t :=
  if configured telegramCustom
  then customTelegramFilter v
  else builtinTelegramFilter v.

Definition telegramVariants (t : string) : list Filter.t :=
  map telegramFieldFilter (telegramVariantValues t).

(** How many of the [requests] are sent, one after the other from call
    number [i] on, when sending stops at the first response that has a
    first contact with an identifier other than 0. *)
Fixpoint requestsUntilMatch (remote : Remote) (i : nat)
    (requests : list Request.t) : nat :=
  match requests with
  | [] => O
  | request :: rest =>
      if yieldsContact (remote i request)
      then 1%nat
      else S (requestsUntilMatch remote (S i) rest)
  end.

(** A phone the tool keeps: it matches the pattern and does not start
    with [@]. *)
Definition validPhone (phone : string) : bool :=
  phonePattern phone && negb (JsString.startsWith phone "@").

(** An optional name that contains a space. *)
Definition containsSpace (name : option string) : bool :=
  match name with
  | Some n => JsString.includes n " "
  | None => false
  end.

(** An optional name that contains white space. *)
Definition containsWhiteSpace (name : option string) : bool :=
  match name with
  | Some n => JsString.existsb JsString.isWhiteSpace n
  | None => false
  end.


(** The input with its phone removed. *)
Definition withoutPhone (args : Args.t) : Args.t :=
  Args.make (Args.name args) (Args.nameTranslated args) None
    (Args.email args) (Args.telegram args) (Args.custom args).

(** A computation that never throws and sends only requests for filters
    that satisfy [P]. *)
Definition Sends {A} (P : Filter.t -> Prop) (m : M A) : Prop :=
  forall w, exists a w' sent,
    m w = (Normal a, w')
    /\ calls w' = calls w ++ map requestFor sent
    /\ Forall P sent.

(** The filters of the stages that apply to an input. *)
Definition candidateFilters (args : Args.t) : list Filter.t :=
  let fs := filters args in
  let opt (o : option Filter.t) := match o with Some f => [f] | None => [] end in
  (if truthyStr (Args.email args) then opt (Filters.byEmail fs) else [])
  ++ (if truthyStr (phone args) then opt (Filters.byPhone fs) else [])
  ++ (if hasInnerSpace (Args.name args) then opt (Filters.byName fs) else [])
  ++ (if hasInnerSpace (Args.nameTranslated args)
      then opt (Filters.byNameTranslated fs) else [])
  ++ (if truthyStr (Args.telegram args)
      then opt (Filters.byTelegram fs) ++ opt (Filters.byTelegramWithAt fs)
           ++ opt (Filters.byTelegramOriginalCase fs)
           ++ opt (Filters.byTelegramOriginalCaseWithAt fs)
           ++ opt (Filters.byTelegramUrl fs)
      else [])
  ++ customFilters args.




(** Attempts made one after the other, each unless a contact is found. *)
Fixpoint attemptEach (remote : Remote) (fs : list Filter.t) (v : Vars) : M Vars :=
  match fs with
  | [] => ret v
  | f :: rest =>
      bind (attemptUnlessFound remote (Some f) v) (attemptEach remote rest)
  end.

(** The name filter and the translated-name filter of an input. *)
Definition byNameFilter (args : Args.t) : Filter.t :=
  Filter.make 4001 "equal" (option_map VString (Args.name args)) None.

Definition byNameTranslatedFilter (args : Args.t) : Filter.t :=
  Filter.make 4001 "equal" (option_map VString (Args.nameTranslated args)) None.

(** The variables hold nothing, or what the last request sent has yielded. *)
Definition Coherent (remote : Remote) (w : World) (v : Vars) : Prop :=
  (contactId v = None /\ result v = None)
  \/ exists prev request,
       calls w = prev ++ [request]
       /\ result v = Some (attemptResult (remote (length prev) request))
       /\ contactId v
          = Some (Result.contactId (attemptResult (remote (length prev) request))).

(** A stage that returns after sending the first [k] of the filters [cs],
    that sends nothing and changes nothing once a contact is found, and that
    stops short of the last filter only with a contact found. *)
Definition Tries (remote : Remote) (cs : list Filter.t) (m : Vars -> M Vars)
  : Prop :=
  forall v w, exists v' w' k,
    m v w = (Normal v', w')
    /\ (k <= length cs)%nat
    /\ calls w' = calls w ++ map requestFor (firstn k cs)
    /\ (Coherent remote w v -> Coherent remote w' v')
    /\ (truthyNum (contactId v) = true -> k = O /\ v' = v)
    /\ ((k < length cs)%nat -> truthyNum (contactId v') = true).



(** The filter of an entry of [filters], if it is defined. *)
Definition defined (o : option Filter.t) : list Filter.t :=
  match o with
  | Some f => [f]
  | None => []
  end.

(** The remote whose responses are cut down to their first contact. *)
Definition firstContactOnly (remote : Remote) : Remote :=
  fun i request =>
    match remote i request with
    | Resolves (Some (contact :: _)) => Resolves (Some [contact])
    | o => o
    end.

(** The input with its telegram removed. *)
Definition withoutTelegram (args : Args.t) : Args.t :=
  Args.make (Args.name args) (Args.nameTranslated args) (Args.phone args)
    (Args.email args) None (Args.custom args).

(** ** The monad *)

Lemma bind_normal {A B} (m : M A) (k : A -> M B) w a w' :
  m w = (Normal a, w') -> bind m k w = k a w'.
Proof. intros H. unfold bind. now rewrite H. Qed.

Lemma Sends_ret {A} P (a : A) : Sends P (ret a).
Proof.
  intros w. exists a, w, []. cbn. rewrite app_nil_r. auto.
Qed.

Lemma Sends_bind {A B} P (m : M A) (k : A -> M B) :
  Sends P m -> (forall a, Sends P (k a)) -> Sends P (bind m k).
Proof.
  intros Hm Hk w.
  destruct (Hm w) as (a & w1 & s1 & E1 & C1 & F1).
  destruct (Hk a w1) as (b & w2 & s2 & E2 & C2 & F2).
  exists b, w2, (s1 ++ s2). repeat split.
  - now rewrite (bind_normal _ _ _ _ _ E1).
  - now rewrite C2, C1, map_app, app_assoc.
  - now apply Forall_app.
Qed.

Lemma Sends_weaken {A} (P Q : Filter.t -> Prop) (m : M A) :
  (forall f, P f -> Q f) -> Sends P m -> Sends Q m.
Proof.
  intros HPQ Hm w. destruct (Hm w) as (a & w' & s & E & C & F).
  exists a, w', s. repeat split; auto. eapply Forall_impl; eauto.
Qed.

(** ** One attempt *)

Lemma searchWithFilter_run remote filter w :
  searchWithFilter remote filter w =
  (Normal (attemptResult (remote (length (calls w)) (requestFor filter))),
   afterAttempt w filter (remote (length (calls w)) (requestFor filter))).
Proof.
  unfold searchWithFilter, tryCatch, bind, planfixRequest, afterAttempt.
  destruct (remote (length (calls w)) (requestFor filter)) as [e | [[|c l]|]];
    cbn; rewrite ?app_nil_r; reflexivity.
Qed.

Lemma searchAndAssign_run remote filter w :
  searchAndAssign remote filter w =
  (let o := remote (length (calls w)) (requestFor filter) in
   (Normal (mkVars (Some (Result.contactId (attemptResult o)))
                   (Some (attemptResult o))),
    afterAttempt w filter o)).
Proof.
  unfold searchAndAssign. erewrite bind_normal by apply searchWithFilter_run.
  reflexivity.
Qed.

Lemma Sends_searchAndAssign remote (P : Filter.t -> Prop) filter :
  P filter -> Sends P (searchAndAssign remote filter).
Proof.
  intros HP w. rewrite searchAndAssign_run. cbv zeta.
  eexists _, _, [filter]. repeat split. auto.
Qed.

Lemma Sends_attemptUnlessFound remote (P : Filter.t -> Prop) filter v :
  (forall f, filter = Some f -> P f) ->
  Sends P (attemptUnlessFound remote filter v).
Proof.
  intros HP. unfold attemptUnlessFound. destruct filter as [f|].
  - destruct (negb (truthyNum (contactId v))).
    + apply Sends_searchAndAssign. auto.
    + apply Sends_ret.
  - apply Sends_ret.
Qed.

Lemma Sends_log P line : Sends P (log line).
Proof.
  intros w. exists tt, (mkWorld (calls w) (logs w ++ [line])), [].
  cbn. rewrite app_nil_r. auto.
Qed.

(** ** The stages send candidate filters only *)

Lemma Sends_telegramCrossCheck P args v : Sends P (telegramCrossCheck args v).
Proof.
  unfold telegramCrossCheck.
  destruct (Args.telegram args) as [t|]; try apply Sends_ret.
  destruct (contactId v) as [cid|]; try apply Sends_ret.
  destruct (result v) as [r|]; try apply Sends_ret.
  destruct (Result.telegram r) as [ft|]; try apply Sends_ret.
  destruct (_ && _); try apply Sends_ret.
  cbv zeta. destruct (negb _); try apply Sends_ret.
  apply Sends_bind; [apply Sends_log | intros; apply Sends_ret].
Qed.

Lemma Sends_crossCheckedStage remote P args name filter v :
  (forall f, hasInnerSpace name = true -> filter = Some f -> P f) ->
  Sends P (crossCheckedStage remote args name filter v).
Proof.
  intros HP. unfold crossCheckedStage. destruct filter as [f|]; try apply Sends_ret.
  destruct (negb (truthyNum (contactId v))); cbn [andb]; try apply Sends_ret.
  destruct (hasInnerSpace name) eqn:G; try apply Sends_ret.
  apply Sends_bind.
  - apply Sends_searchAndAssign. auto.
  - intros. apply Sends_telegramCrossCheck.
Qed.

Lemma Sends_customLoop remote (P : Filter.t -> Prop) cfs :
  Forall P cfs -> forall v, Sends P (customLoop remote cfs v).
Proof.
  induction 1 as [|cf rest Hcf Hrest IH]; intros v; cbn.
  - apply Sends_ret.
  - destruct (truthyNum (contactId v)); try apply Sends_ret.
    apply Sends_bind; [now apply Sends_searchAndAssign | exact IH].
Qed.

Ltac candidate :=
  unfold candidateFilters; cbv zeta;
  repeat match goal with
         | H : _ = true |- _ => rewrite H
         | H : _ = Some _ |- _ => rewrite H
         end;
  rewrite ?in_app_iff; cbn [In]; tauto.

Lemma cascade_sends remote args :
  Sends (fun f => In f (candidateFilters args)) (cascade remote args).
Proof.
  unfold cascade.
  apply Sends_bind.
  { unfold emailStage. destruct (truthyStr (Args.email args)) eqn:G;
      [|apply Sends_ret].
    apply Sends_attemptUnlessFound. intros f Hf. candidate. }
  intros v0. apply Sends_bind.
  { unfold phoneStage. destruct (truthyStr (phone args)) eqn:G;
      [|apply Sends_ret].
    apply Sends_attemptUnlessFound. intros f Hf. candidate. }
  intros v1. apply Sends_bind.
  { apply Sends_crossCheckedStage. intros f G Hf. candidate. }
  intros v2. apply Sends_bind.
  { apply Sends_crossCheckedStage. intros f G Hf. candidate. }
  intros v3. apply Sends_bind.
  { unfold telegramStage.
    destruct (negb (truthyNum (contactId v3))); cbn [andb]; [|apply Sends_ret].
    destruct (truthyStr (Args.telegram args)) eqn:G; [|apply Sends_ret].
    apply Sends_bind.
    { destruct (Filters.byTelegram (filters args)) as [f|] eqn:Hf;
        [|apply Sends_ret].
      apply Sends_searchAndAssign. candidate. }
    intros w1. apply Sends_bind.
    { apply Sends_attemptUnlessFound. intros f Hf. candidate. }
    intros w2. apply Sends_bind.
    { apply Sends_attemptUnlessFound. intros f Hf. candidate. }
    intros w3. apply Sends_bind.
    { apply Sends_attemptUnlessFound. intros f Hf. candidate. }
    intros w4. apply Sends_attemptUnlessFound. intros f Hf. candidate. }
  intros v4. unfold customStage.
  destruct (_ && _); [|apply Sends_ret].
  apply Sends_customLoop. apply Forall_forall. intros f Hf. candidate.
Qed.

(** The tool returns: the cascade does not throw, and what the URL builder
    throws is caught. *)
Lemma planfixSearchContact_run remote args w :
  exists v w1,
    cascade remote args w = (Normal v, w1)
    /\ planfixSearchContact remote args w =
       match getContactUrl (orZero (contactId v)) with
       | Normal url =>
           (Normal
              (Result.make (orZero (contactId v)) (Some url)
                 (match result v with Some r => Result.firstName r | None => None end)
                 (match result v with Some r => Result.lastName r | None => None end)
                 None (0 <? orZero (contactId v)) None),
            w1)
       | Throw e =>
           (Normal (Result.make 0 None None None (Some (errorMessage e)) false None),
            mkWorld (calls w1) (logs w1 ++ [LogError (errorMessage e)]))
       end.
Proof.
  destruct (cascade_sends remote args w) as (v & w1 & sent & E & _ & _).
  exists v, w1. split; [exact E|].
  unfold planfixSearchContact, tryCatch.
  rewrite (bind_normal _ _ _ _ _ E).
  unfold finalize, bind.
  destruct (getContactUrl (orZero (contactId v))); reflexivity.
Qed.

(** ** A failed call counts as a call that found nothing *)











(** ** Strings *)

Lemma prefix_empty s : String.prefix "" s = true.
Proof. now destruct s. Qed.

Lemma includes_char s a :
  JsString.includes s (String a "") = JsString.existsb (Ascii.eqb a) s.
Proof.
  induction s as [|b s IH]; [reflexivity|].
  cbn [JsString.includes JsString.existsb String.prefix].
  rewrite IH. destruct (ascii_dec a b) as [->|Hne].
  - now rewrite prefix_empty, Ascii.eqb_refl.
  - apply Ascii.eqb_neq in Hne. now rewrite Hne.
Qed.

Lemma existsb_trimStart p s :
  JsString.existsb p (JsString.trimStart s) = true -> JsString.existsb p s = true.
Proof.
  induction s as [|c s IH]; cbn; [auto|].
  destruct (JsString.isWhiteSpace c); cbn; [|auto].
  intros H. rewrite (IH H). apply orb_true_r.
Qed.

Lemma existsb_trimEnd p s :
  JsString.existsb p (JsString.trimEnd s) = true -> JsString.existsb p s = true.
Proof.
  induction s as [|c s IH]; cbn; [auto|].
  destruct (JsString.trimEnd s) as [|c' kept].
  - destruct (JsString.isWhiteSpace c); cbn; [discriminate|].
    rewrite orb_false_r. now intros ->.
  - cbn [JsString.existsb]. intros H. apply orb_true_iff in H as [H|H].
    + now rewrite H.
    + rewrite (IH H). apply orb_true_r.
Qed.

Lemma existsb_weaken (p q : ascii -> bool) s :
  (forall c, p c = true -> q c = true) ->
  JsString.existsb p s = true -> JsString.existsb q s = true.
Proof.
  intros Hpq. induction s as [|c s IH]; cbn; [auto|].
  intros H. apply orb_true_iff in H as [H|H].
  - now rewrite (Hpq c H).
  - rewrite (IH H). apply orb_true_r.
Qed.

Lemma hasInnerSpace_containsSpace name :
  hasInnerSpace name = true -> containsSpace name = true.
Proof.
  destruct name as [n|]; cbn; [|auto].
  intros H. apply andb_true_iff in H as [_ H].
  rewrite includes_char in *.
  now apply existsb_trimStart, existsb_trimEnd.
Qed.

Lemma containsSpace_containsWhiteSpace name :
  containsSpace name = true -> containsWhiteSpace name = true.
Proof.
  destruct name as [n|]; cbn; [|auto].
  rewrite includes_char. apply existsb_weaken.
  intros c H. apply Ascii.eqb_eq in H. now subst c.
Qed.

Lemma truthy_phone args :
  truthyStr (phone args) = true ->
  exists p, Args.phone args = Some p /\ validPhone p = true /\ phone args = Some p.
Proof.
  unfold phone, sanitizePhone, validPhone.
  destruct (Args.phone args) as [p|]; [|discriminate].
  destruct (JsString.truthy p) eqn:T; cbn [andb].
  - destruct (JsString.startsWith p "@") eqn:S; cbn [orb]; [discriminate|].
    destruct (phonePattern p) eqn:R; cbn; [|discriminate].
    intros _. exists p. now rewrite S, R.
  - cbn. rewrite T. discriminate.
Qed.

(** ** What the candidate filters are *)

Lemma telegramFilter_type telegram v f :
  telegramFilter telegram v = Some f ->
  Filter.type f = 4101 \/ Filter.type f = 4226.
Proof.
  unfold telegramFilter. destruct telegram as [t|]; [|discriminate].
  destruct (JsString.truthy t); [|discriminate].
  destruct (configured telegramCustom); [intros [= <-]; now left|].
  destruct (configured telegramBuiltin); [intros [= <-]; now right|discriminate].
Qed.

Lemma telegramFilterWithAt_type telegram v f :
  telegramFilterWithAt telegram v = Some f ->
  Filter.type f = 4101 \/ Filter.type f = 4226.
Proof.
  unfold telegramFilterWithAt. destruct telegram as [t|]; [|discriminate].
  destruct (_ && _); [intros [= <-]; now left|].
  destruct (_ && _); [intros [= <-]; now right|discriminate].
Qed.

Lemma candidateFilters_kinds args f :
  In f (candidateFilters args) ->
  In f (customFilters args)
  \/ Filter.type f = 4026
  \/ (Filter.type f = 4003
      /\ exists p, Args.phone args = Some p /\ validPhone p = true
                   /\ Filter.value f = Some (VString p))
  \/ (Filter.type f = 4001
      /\ exists n, Filter.value f = Some (VString n)
                   /\ JsString.includes n " " = true)
  \/ Filter.type f = 4101
  \/ Filter.type f = 4226.
Proof.
  unfold candidateFilters. cbv zeta. rewrite !in_app_iff.
  intros [H|[H|[H|[H|[H|H]]]]].
  - destruct (truthyStr (Args.email args)); [|contradiction].
    destruct H as [<-|[]]. auto.
  - destruct (truthyStr (phone args)) eqn:G; [|contradiction].
    destruct H as [<-|[]]. right; right; left. split; [reflexivity|].
    destruct (truthy_phone args G) as (p & Hp & Hv & E).
    exists p. cbn. rewrite E. auto.
  - destruct (hasInnerSpace (Args.name args)) eqn:G; [|contradiction].
    destruct H as [<-|[]]. right; right; right; left. split; [reflexivity|].
    apply hasInnerSpace_containsSpace in G.
    destruct (Args.name args) as [n|]; [|discriminate]. exists n. auto.
  - destruct (hasInnerSpace (Args.nameTranslated args)) eqn:G; [|contradiction].
    destruct H as [<-|[]]. right; right; right; left. split; [reflexivity|].
    apply hasInnerSpace_containsSpace in G.
    destruct (Args.nameTranslated args) as [n|]; [|discriminate]. exists n. auto.
  - destruct (truthyStr (Args.telegram args)); [|contradiction].
    assert (T : Filter.type f = 4101 \/ Filter.type f = 4226); [|tauto].
    rewrite !in_app_iff in H. cbn [Filters.byTelegram Filters.byTelegramWithAt
      Filters.byTelegramOriginalCase Filters.byTelegramOriginalCaseWithAt
      Filters.byTelegramUrl filters] in H.
    destruct H as [H|[H|[H|[H|H]]]];
      match type of H with
      | In _ (match ?o with _ => _ end) =>
          destruct o as [g|] eqn:Hg; [destruct H as [<-|[]] | contradiction]
      end;
      first [ now apply telegramFilter_type in Hg
            | now apply telegramFilterWithAt_type in Hg ].
  - auto.
Qed.

Lemma planfixSearchContact_sends remote args w :
  exists r w' sent,
    planfixSearchContact remote args w = (Normal r, w')
    /\ calls w' = calls w ++ map requestFor sent
    /\ Forall (fun f => In f (candidateFilters args)) sent.
Proof.
  destruct (planfixSearchContact_run remote args w) as (v & w1 & C & E).
  destruct (cascade_sends remote args w) as (v' & w1' & sent & C' & Hc & Hs).
  rewrite C in C'. injection C' as <- <-.
  rewrite E. destruct (getContactUrl _); eexists _, _, sent; auto.
Qed.

Lemma bind_congr {A B} (m1 m2 : M A) (k1 k2 : A -> M B) w :
  m1 w = m2 w -> (forall a u, k1 a u = k2 a u) -> bind m1 k1 w = bind m2 k2 w.
Proof.
  intros Hm Hk. unfold bind. rewrite Hm.
  destruct (m2 w) as [[a|e] u]; auto.
Qed.

(** ** The claims *)

(** C2. For every input and every remote, the tool returns a result whose
    [found] is true if and only if its [contactId] is greater than 0. *)
Theorem C2_found_iff_contactId_positive remote args w :
  exists r w',
    planfixSearchContact remote args w = (Normal r, w')
    /\ (Result.found r = true <-> Result.contactId r > 0).
Proof.
  destruct (planfixSearchContact_run remote args w) as (v & w1 & _ & E).
  destruct (getContactUrl (orZero (contactId v)));
    eexists _, _; (split; [exact E|]); cbn.
  - rewrite Z.ltb_lt. lia.
  - split; [discriminate | lia].
Qed.

(** C6 as amended. For every input and every remote the tool returns a
    result. When the URL builder returns, the result carries the URL built
    from the result's own [contactId], also when that is 0. When the URL
    builder throws, the result is the one of the [catch] block: [contactId]
    0, the error message, [found] false, and no [url]. *)
Theorem C6_url_from_contactId_unless_caught remote args w :
  exists r w',
    planfixSearchContact remote args w = (Normal r, w')
    /\ ((exists url,
           getContactUrl (Result.contactId r) = Normal url
           /\ Result.url r = Some url)
        \/ (exists v w1 e,
              cascade remote args w = (Normal v, w1)
              /\ getContactUrl (orZero (contactId v)) = Throw e
              /\ r = Result.make 0 None None None (Some (errorMessage e)) false None)).
Proof.
  destruct (planfixSearchContact_run remote args w) as (v & w1 & C & E).
  destruct (getContactUrl (orZero (contactId v))) as [url|e] eqn:G;
    eexists _, _; (split; [exact E|]).
  - left. exists url. cbn. auto.
  - right. exists v, w1, e. auto.
Qed.

Lemma invalid_phone_falsy args p :
  Args.phone args = Some p ->
  phonePattern p = false \/ JsString.startsWith p "@" = true ->
  truthyStr (phone args) = false.
Proof.
  intros Hp Hbad. destruct (truthyStr (phone args)) eqn:G; [|reflexivity].
  destruct (truthy_phone args G) as (q & Hq & Hv & _).
  rewrite Hp in Hq. injection Hq as <-.
  unfold validPhone in Hv. apply andb_true_iff in Hv as [Hpat Hat].
  destruct Hbad as [H|H]; rewrite H in *; discriminate.
Qed.

(** C7. For every input whose phone fails the pattern or starts with [@]:
    the phone is treated as absent, so that the phone stage does nothing;
    the tool returns, and every request it sends with a filter of the phone
    type 4003 carries one of the custom-field filters, never the phone
    filter; and, the custom-field filters being the same, the run is the run
    of the same input without a phone. *)
Theorem C7_invalid_phone_is_dropped remote args p w :
  Args.phone args = Some p ->
  phonePattern p = false \/ JsString.startsWith p "@" = true ->
  truthyStr (phone args) = false
  /\ (forall v u, phoneStage remote args v u = (Normal v, u))
  /\ (exists r w' sent,
        planfixSearchContact remote args w = (Normal r, w')
        /\ calls w' = calls w ++ map requestFor sent
        /\ Forall (fun f => Filter.type f = 4003 -> In f (customFilters args)) sent)
  /\ (customFilters (withoutPhone args) = customFilters args ->
      planfixSearchContact remote args w
      = planfixSearchContact remote (withoutPhone args) w).
Proof.
  intros Hp Hbad. pose proof (invalid_phone_falsy args p Hp Hbad) as G.
  assert (Hstage : forall v u, phoneStage remote args v u = (Normal v, u)).
  { intros v u. unfold phoneStage. now rewrite G. }
  split; [exact G|]. split; [exact Hstage|]. split.
  - destruct (planfixSearchContact_sends remote args w) as (r & w' & sent & E & C & F).
    exists r, w', sent. split; [exact E|]. split; [exact C|].
    eapply Forall_impl; [|exact F]. cbv beta. intros f Hin Ht.
    destruct (candidateFilters_kinds args f Hin)
      as [H|[H|[[_ (q & Hq & Hv & _)]|[[H _]|[H|H]]]]];
      try (rewrite Ht in H; discriminate); [exact H|].
    rewrite Hp in Hq. injection Hq as <-.
    unfold validPhone in Hv. apply andb_true_iff in Hv as [Hpat Hat].
    destruct Hbad as [H|H]; rewrite H in *; discriminate.
  - intros Hcustom. unfold planfixSearchContact, tryCatch.
    replace ((v <- cascade remote (withoutPhone args);; finalize v) w)
      with ((v <- cascade remote args;; finalize v) w); [reflexivity|].
    apply bind_congr; [|reflexivity].
    unfold cascade.
    apply bind_congr; [reflexivity|]. intros v0 u0.
    apply bind_congr; [now rewrite Hstage|]. intros v1 u1.
    apply bind_congr; [reflexivity|]. intros v2 u2.
    apply bind_congr; [reflexivity|]. intros v3 u3.
    apply bind_congr; [reflexivity|]. intros v4 u4.
    unfold customStage. now rewrite Hcustom.
Qed.

(** C8. For every input, the name stage issues a remote call only if the
    name contains a space, hence white space: otherwise it leaves the
    variables and the world as they are. Likewise the translated-name
    stage. And in a whole run, every request sent with a filter of the name
    type 4001 that is not a custom-field filter carries a value that
    contains a space. *)
Theorem C8_name_without_space_never_sent remote args w :
  (forall v u,
      (containsSpace (Args.name args) = true
       /\ containsWhiteSpace (Args.name args) = true)
      \/ nameStage remote args v u = (Normal v, u))
  /\ (forall v u,
        (containsSpace (Args.nameTranslated args) = true
         /\ containsWhiteSpace (Args.nameTranslated args) = true)
        \/ nameTranslatedStage remote args v u = (Normal v, u))
  /\ (exists r w' sent,
        planfixSearchContact remote args w = (Normal r, w')
        /\ calls w' = calls w ++ map requestFor sent
        /\ Forall (fun f =>
                     Filter.type f = 4001 ->
                     In f (customFilters args)
                     \/ exists n, Filter.value f = Some (VString n)
                                  /\ JsString.includes n " " = true) sent).
Proof.
  assert (Hstage : forall name filter v u,
             (containsSpace name = true /\ containsWhiteSpace name = true)
             \/ crossCheckedStage remote args name filter v u = (Normal v, u)).
  { intros name filter v u. destruct (hasInnerSpace name) eqn:G.
    - left. apply hasInnerSpace_containsSpace in G.
      split; [exact G | now apply containsSpace_containsWhiteSpace].
    - right. unfold crossCheckedStage. rewrite G, andb_false_r.
      now destruct filter. }
  split; [intros; apply Hstage|]. split; [intros; apply Hstage|].
  destruct (planfixSearchContact_sends remote args w) as (r & w' & sent & E & C & F).
  exists r, w', sent. split; [exact E|]. split; [exact C|].
  eapply Forall_impl; [|exact F]. cbv beta. intros f Hin Ht.
  destruct (candidateFilters_kinds args f Hin)
    as [H|[H|[[H _]|[[_ H]|[H|H]]]]];
    try (rewrite Ht in H; discriminate); auto.
Qed.

(** C9. For every input with no email, no phone that passes the
    sanitation, no name and no translated name that contains a space, no
    telegram, and no custom-field filter produced, the tool returns a
    result with [contactId] 0 and [found] false, and sends no request. *)
Theorem C9_nothing_to_search_by remote args w :
  truthyStr (Args.email args) = false ->
  (forall p, Args.phone args = Some p -> validPhone p = false) ->
  containsSpace (Args.name args) = false ->
  containsSpace (Args.nameTranslated args) = false ->
  truthyStr (Args.telegram args) = false ->
  customFilters args = [] ->
  exists r w',
    planfixSearchContact remote args w = (Normal r, w')
    /\ Result.contactId r = 0
    /\ Result.found r = false
    /\ calls w' = calls w.
Proof.
  intros He Hp Hn Hnt Ht Hc.
  assert (Gp : truthyStr (phone args) = false).
  { destruct (truthyStr (phone args)) eqn:G; [|reflexivity].
    destruct (truthy_phone args G) as (q & Hq & Hv & _).
    rewrite (Hp q Hq) in Hv. discriminate. }
  assert (Gn : hasInnerSpace (Args.name args) = false).
  { destruct (hasInnerSpace (Args.name args)) eqn:G; [|reflexivity].
    apply hasInnerSpace_containsSpace in G. congruence. }
  assert (Gnt : hasInnerSpace (Args.nameTranslated args) = false).
  { destruct (hasInnerSpace (Args.nameTranslated args)) eqn:G; [|reflexivity].
    apply hasInnerSpace_containsSpace in G. congruence. }
  assert (C : cascade remote args w = (Normal (mkVars None None), w)).
  { unfold cascade, emailStage, phoneStage, nameStage, nameTranslatedStage,
      crossCheckedStage, telegramStage, customStage.
    rewrite He, Gp, Gn, Gnt, Ht, Hc. reflexivity. }
  destruct (planfixSearchContact_run remote args w) as (v & w1 & C' & E).
  rewrite C in C'. injection C' as <- <-.
  rewrite E. cbn. destruct (getContactUrl 0); eexists _, _; cbn; auto.
Qed.

(** ** Attempts in a row *)

Lemma attemptEach_found remote fs : forall v w,
  truthyNum (contactId v) = true -> attemptEach remote fs v w = (Normal v, w).
Proof.
  induction fs as [|f rest IH]; intros v w H; cbn; [reflexivity|].
  unfold bind. rewrite H. cbn. now apply IH.
Qed.

Lemma attemptEach_run remote fs :
  forall v w,
    truthyNum (contactId v) = false ->
    exists v' w',
      attemptEach remote fs v w = (Normal v', w')
      /\ calls w' =
         calls w
         ++ firstn (requestsUntilMatch remote (length (calls w))
                      (map requestFor fs))
              (map requestFor fs).
Proof.
  induction fs as [|f rest IH]; intros v w Hv; cbn [attemptEach map].
  - exists v, w. cbn. now rewrite app_nil_r.
  - unfold bind at 1. unfold attemptUnlessFound. rewrite Hv. cbn [negb].
    rewrite searchAndAssign_run. cbv zeta. cbn [requestsUntilMatch].
    destruct (yieldsContact (remote (length (calls w)) (requestFor f))) eqn:Y.
    + rewrite attemptEach_found.
      * eexists _, _. split; [reflexivity|]. reflexivity.
      * cbn [contactId truthyNum].
        destruct (remote (length (calls w)) (requestFor f)) as [e | [[|c l]|]];
          cbn in Y; try discriminate. exact Y.
    + destruct (IH (mkVars (Some (Result.contactId
                                    (attemptResult (remote (length (calls w)) (requestFor f)))))
                           (Some (attemptResult (remote (length (calls w)) (requestFor f)))))
                   (afterAttempt w f (remote (length (calls w)) (requestFor f))))
        as (v' & w' & E & C).
      * cbn [contactId truthyNum].
        destruct (remote (length (calls w)) (requestFor f)) as [e | [[|c l]|]];
          cbn in Y |- *; try reflexivity. now rewrite Y.
      * exists v', w'. split; [exact E|]. rewrite C.
        unfold afterAttempt. cbn [calls firstn].
        rewrite length_app, Nat.add_1_r, <- app_assoc. reflexivity.
Qed.

Lemma telegramStage_variants remote args t v w :
  Args.telegram args = Some t ->
  JsString.truthy t = true ->
  configured telegramCustom = true \/ configured telegramBuiltin = true ->
  truthyNum (contactId v) = false ->
  telegramStage remote args v w
  = attemptEach remote (telegramVariants t) v w.
Proof.
  intros Ht Htr Hcfg Hv.
  unfold telegramStage, telegramVariants, telegramVariantValues, telegramFieldFilter.
  rewrite Hv, Ht. cbn [negb andb truthyStr]. rewrite Htr.
  cbn [Filters.byTelegram Filters.byTelegramWithAt Filters.byTelegramOriginalCase
       Filters.byTelegramOriginalCaseWithAt Filters.byTelegramUrl filters].
  unfold telegramFilter, telegramFilterWithAt, ensureLeadingAt. rewrite Ht, Htr.
  cbn [andb map attemptEach].
  destruct (configured telegramCustom) eqn:Gc.
  - unfold attemptUnlessFound at 5. rewrite Hv. cbn [negb].
    apply bind_congr; [reflexivity|]. intros v1 u1.
    apply bind_congr; [reflexivity|]. intros v2 u2.
    apply bind_congr; [reflexivity|]. intros v3 u3.
    apply bind_congr; [reflexivity|]. intros v4 u4.
    unfold bind. now destruct (attemptUnlessFound _ _ _ _) as [[?|?] ?].
  - destruct Hcfg as [Hcfg|Hcfg]; [discriminate|]. rewrite Hcfg.
    unfold attemptUnlessFound at 5. rewrite Hv. cbn [negb].
    apply bind_congr; [reflexivity|]. intros v1 u1.
    apply bind_congr; [reflexivity|]. intros v2 u2.
    apply bind_congr; [reflexivity|]. intros v3 u3.
    apply bind_congr; [reflexivity|]. intros v4 u4.
    unfold bind. now destruct (attemptUnlessFound _ _ _ _) as [[?|?] ?].
Qed.

(** C4 as amended. For every input that supplies a telegram value, with a
    telegram field configured and no contact found by an earlier stage: the
    telegram stage returns, and the requests it sends are - each to
    [contact/list], with one [equal] filter on the telegram field - the five
    variants in this order: lowercase with [@] stripped, that one prefixed
    with [@], original case with [@] stripped, original case with [@]
    ensured, and [https://t.me/] followed by the handle with its leading
    [@] removed and its case kept; the sequence is cut after the first
    request whose response has a first contact with an identifier other
    than 0, and is all five when there is none. *)
Theorem C4_telegram_variants_in_order remote args t v w :
  Args.telegram args = Some t ->
  JsString.truthy t = true ->
  configured telegramCustom = true \/ configured telegramBuiltin = true ->
  truthyNum (contactId v) = false ->
  let request value :=
    Request.make "contact/list" 0 100
      [ Filter.make (if configured telegramCustom then 4101 else 4226) "equal"
          (Some (VString value))
          (if configured telegramCustom then Some telegramCustom else None) ]
      postBodyFields in
  let variants :=
    [ request (JsString.toLowerCase (JsString.stripLeadingAt t));
      request ("@" ++ JsString.toLowerCase (JsString.stripLeadingAt t))%string;
      request (JsString.stripLeadingAt t);
      request (if JsString.startsWith t "@" then t else ("@" ++ t)%string);
      request ("https://t.me/" ++ JsString.stripLeadingAt t)%string ] in
  exists v' w',
    telegramStage remote args v w = (Normal v', w')
    /\ calls w' =
       calls w
       ++ firstn (requestsUntilMatch remote (length (calls w)) variants) variants.
Proof.
  intros Ht Htr Hcfg Hv request variants.
  rewrite (telegramStage_variants remote args t v w Ht Htr Hcfg Hv).
  replace variants with (map requestFor (telegramVariants t)).
  - exact (attemptEach_run remote (telegramVariants t) v w Hv).
  - unfold variants, request, telegramVariants, telegramVariantValues,
      telegramFieldFilter, requestFor, customTelegramFilter, builtinTelegramFilter.
    now destruct (configured telegramCustom).
Qed.

(** ** The name stages and the telegram cross-check *)

Lemma crossCheckedStage_hit remote args name f v w c rest :
  truthyNum (contactId v) = false ->
  hasInnerSpace name = true ->
  remote (length (calls w)) (requestFor f) = Resolves (Some (c :: rest)) ->
  crossCheckedStage remote args name (Some f) v w
  = telegramCrossCheck args
      (mkVars (Some (Contact.id c)) (Some (foundResult c)))
      (afterAttempt w f (Resolves (Some (c :: rest)))).
Proof.
  intros Hv Hn Ho. unfold crossCheckedStage. rewrite Hv, Hn. cbn [negb andb].
  erewrite bind_normal by apply searchAndAssign_run.
  cbv zeta. rewrite Ho. reflexivity.
Qed.

Lemma telegramCrossCheck_mismatch args t c w :
  Args.telegram args = Some t ->
  JsString.truthy t = true ->
  0 < Contact.id c ->
  extractTelegramFromContact c <> "" ->
  extractTelegramFromContact c <> normalizeTelegram t ->
  telegramCrossCheck args (mkVars (Some (Contact.id c)) (Some (foundResult c))) w
  = (Normal (mkVars None None),
     mkWorld (calls w)
       (logs w ++ [LogTelegramMismatch t (extractTelegramFromContact c)])).
Proof.
  intros Ht Htr Hid Hne Hdiff. unfold telegramCrossCheck. rewrite Ht.
  cbn [contactId result foundResult Result.telegram].
  assert (Te : JsString.truthy (extractTelegramFromContact c) = true).
  { apply negb_true_iff, String.eqb_neq. exact Hne. }
  assert (D : (JsString.toLowerCase (JsString.stripLeadingAt t)
               =? extractTelegramFromContact c)%string = false).
  { apply String.eqb_neq. intros E. apply Hdiff. now rewrite <- E. }
  apply Z.ltb_lt in Hid.
  rewrite Te. cbv iota beta. rewrite Htr, Hid, Te. cbn [andb]. cbv zeta.
  rewrite D. reflexivity.
Qed.

Lemma telegramCrossCheck_skipped args c w :
  extractTelegramFromContact c = "" ->
  telegramCrossCheck args (mkVars (Some (Contact.id c)) (Some (foundResult c))) w
  = (Normal (mkVars (Some (Contact.id c)) (Some (foundResult c))), w).
Proof.
  intros He. unfold telegramCrossCheck.
  cbn [contactId result foundResult Result.telegram]. rewrite He.
  cbn. now destruct (Args.telegram args).
Qed.

Lemma crossCheckedStage_found remote args name filter v w :
  truthyNum (contactId v) = true ->
  crossCheckedStage remote args name filter v w = (Normal v, w).
Proof.
  intros H. unfold crossCheckedStage. rewrite H. now destruct filter.
Qed.

Lemma telegramStage_found remote args v w :
  truthyNum (contactId v) = true -> telegramStage remote args v w = (Normal v, w).
Proof. intros H. unfold telegramStage. now rewrite H. Qed.

Lemma customStage_found remote args v w :
  truthyNum (contactId v) = true -> customStage remote args v w = (Normal v, w).
Proof. intros H. unfold customStage. now rewrite H. Qed.

Lemma extract_recordTelegramValue c :
  extractTelegramFromContact c
  = match recordTelegramValue c with
    | Some s => normalizeTelegram s
    | None => ""
    end.
Proof.
  unfold extractTelegramFromContact, recordTelegramValue, normalizeTelegram.
  destruct (configured telegramCustom).
  - destruct (Contact.customFieldData c) as [data|]; [|reflexivity].
    destruct (find _ data) as [f|]; [|reflexivity].
    now destruct (CustomFieldData.value f).
  - destruct (configured telegramBuiltin); [|reflexivity]. cbn [andb].
    destruct (Contact.telegram c) as [t|]; [|reflexivity].
    cbn. unfold JsString.truthy.
    destruct (String.eqb_spec t ""); [now subst t | reflexivity].
Qed.

(** C3 as amended. For every input that supplies a telegram value and
    whose name stage applies with no contact found before, if the remote
    answers the name request with a contact of positive identifier whose
    extracted telegram is not empty and differs from the supplied telegram,
    lowercased with its [@] stripped, then the name stage logs the
    mismatch and clears [contactId] and [result], and the rest of the
    cascade runs from the cleared variables. Likewise for the
    translated-name stage. *)
Theorem C3_name_match_rejected_on_telegram_mismatch remote args t v w c rest :
  Args.telegram args = Some t ->
  JsString.truthy t = true ->
  truthyNum (contactId v) = false ->
  0 < Contact.id c ->
  extractTelegramFromContact c <> "" ->
  extractTelegramFromContact c <> normalizeTelegram t ->
  let rejected f :=
    mkWorld (calls w ++ [requestFor f])
      (logs w ++ [LogTelegramMismatch t (extractTelegramFromContact c)]) in
  (hasInnerSpace (Args.name args) = true ->
   remote (length (calls w)) (requestFor (byNameFilter args))
   = Resolves (Some (c :: rest)) ->
   nameStage remote args v w
   = (Normal (mkVars None None), rejected (byNameFilter args))
   /\ (v1 <- nameStage remote args v;;
       v2 <- nameTranslatedStage remote args v1;;
       v3 <- telegramStage remote args v2;;
       customStage remote args v3) w
      = (v2 <- nameTranslatedStage remote args (mkVars None None);;
         v3 <- telegramStage remote args v2;;
         customStage remote args v3) (rejected (byNameFilter args)))
  /\ (hasInnerSpace (Args.nameTranslated args) = true ->
      remote (length (calls w)) (requestFor (byNameTranslatedFilter args))
      = Resolves (Some (c :: rest)) ->
      nameTranslatedStage remote args v w
      = (Normal (mkVars None None), rejected (byNameTranslatedFilter args))
      /\ (v2 <- nameTranslatedStage remote args v;;
          v3 <- telegramStage remote args v2;;
          customStage remote args v3) w
         = (v3 <- telegramStage remote args (mkVars None None);;
            customStage remote args v3) (rejected (byNameTranslatedFilter args))).
Proof.
  intros Ht Htr Hv Hid Hne Hdiff rejected.
  assert (Hstage : forall name f,
             hasInnerSpace name = true ->
             remote (length (calls w)) (requestFor f) = Resolves (Some (c :: rest)) ->
             crossCheckedStage remote args name (Some f) v w
             = (Normal (mkVars None None), rejected f)).
  { intros name f Hn Ho.
    rewrite (crossCheckedStage_hit remote args name f v w c rest Hv Hn Ho).
    rewrite (telegramCrossCheck_mismatch args t c _ Ht Htr Hid Hne Hdiff).
    unfold rejected, afterAttempt. cbn. now rewrite app_nil_r. }
  split; intros Hn Ho.
  - pose proof (Hstage _ _ Hn Ho) as E. split; [exact E|].
    now rewrite (bind_normal _ _ _ _ _ E).
  - pose proof (Hstage _ _ Hn Ho) as E. split; [exact E|].
    now rewrite (bind_normal _ _ _ _ _ E).
Qed.

(** C10. For every input that supplies a telegram value and whose name
    stage applies with no contact found before, if the remote answers the
    name request with a contact of positive identifier from which no
    telegram can be extracted (the extraction yields the empty string, so
    the attempt's [telegram] is undefined), then the cross-check is skipped
    and the match is accepted: the stage keeps the contact, the later
    stages send nothing, and the result built from it has this contact's
    identifier and [found] true. Likewise for the translated-name stage. *)
Theorem C10_name_match_accepted_without_record_telegram remote args t v w c rest :
  Args.telegram args = Some t ->
  JsString.truthy t = true ->
  truthyNum (contactId v) = false ->
  0 < Contact.id c ->
  extractTelegramFromContact c = "" ->
  let accepted := mkVars (Some (Contact.id c)) (Some (foundResult c)) in
  let after f := mkWorld (calls w ++ [requestFor f]) (logs w) in
  Result.telegram (foundResult c) = None
  /\ (forall u,
        finalize accepted u
        = match getContactUrl (Contact.id c) with
          | Normal url =>
              (Normal (Result.make (Contact.id c) (Some url) (Contact.name c)
                         (Contact.lastname c) None true None), u)
          | Throw e => (Throw e, u)
          end)
  /\ (hasInnerSpace (Args.name args) = true ->
      remote (length (calls w)) (requestFor (byNameFilter args))
      = Resolves (Some (c :: rest)) ->
      nameStage remote args v w = (Normal accepted, after (byNameFilter args))
      /\ (v2 <- nameTranslatedStage remote args accepted;;
          v3 <- telegramStage remote args v2;;
          customStage remote args v3) (after (byNameFilter args))
         = (Normal accepted, after (byNameFilter args)))
  /\ (hasInnerSpace (Args.nameTranslated args) = true ->
      remote (length (calls w)) (requestFor (byNameTranslatedFilter args))
      = Resolves (Some (c :: rest)) ->
      nameTranslatedStage remote args v w
      = (Normal accepted, after (byNameTranslatedFilter args))
      /\ (v3 <- telegramStage remote args accepted;;
          customStage remote args v3) (after (byNameTranslatedFilter args))
         = (Normal accepted, after (byNameTranslatedFilter args))).
Proof.
  intros Ht Htr Hv Hid He accepted after.
  assert (Hacc : truthyNum (contactId accepted) = true).
  { cbn. apply negb_true_iff, Z.eqb_neq. lia. }
  assert (Hstage : forall name f,
             hasInnerSpace name = true ->
             remote (length (calls w)) (requestFor f) = Resolves (Some (c :: rest)) ->
             crossCheckedStage remote args name (Some f) v w
             = (Normal accepted, after f)).
  { intros name f Hn Ho.
    rewrite (crossCheckedStage_hit remote args name f v w c rest Hv Hn Ho).
    rewrite (telegramCrossCheck_skipped args c _ He).
    unfold after, afterAttempt. cbn. now rewrite app_nil_r. }
  split; [|split; [|split]].
  - unfold foundResult. cbn. now rewrite He.
  - intros u. unfold finalize, bind. cbn [contactId result accepted orZero].
    assert (Z : (Contact.id c =? 0) = false) by (apply Z.eqb_neq; lia).
    rewrite Z. apply Z.ltb_lt in Hid. rewrite Hid.
    now destruct (getContactUrl (Contact.id c)).
  - intros Hn Ho. split; [exact (Hstage _ _ Hn Ho)|].
    unfold nameTranslatedStage.
    erewrite bind_normal by (apply crossCheckedStage_found; exact Hacc).
    erewrite bind_normal by (apply telegramStage_found; exact Hacc).
    now apply customStage_found.
  - intros Hn Ho. split; [exact (Hstage _ _ Hn Ho)|].
    erewrite bind_normal by (apply telegramStage_found; exact Hacc).
    now apply customStage_found.
Qed.

(** C1 as amended. For every attempt whose response's first contact carries
    a telegram value, the result of the attempt, [searchWithFilter]'s, has
    as [telegram] that value lowercased with a leading [@] stripped, and
    undefined when the record carries none or the normalized value is
    empty. The result the tool returns to its caller has no [telegram]. *)
Theorem C1_telegram_in_attempt_result_only remote args filter u w c rest :
  remote (length (calls u)) (requestFor filter) = Resolves (Some (c :: rest)) ->
  (exists r u',
      searchWithFilter remote filter u = (Normal r, u')
      /\ Result.telegram r
         = match recordTelegramValue c with
           | Some s =>
               if JsString.truthy (normalizeTelegram s)
               then Some (normalizeTelegram s)
               else None
           | None => None
           end)
  /\ (exists r w',
        planfixSearchContact remote args w = (Normal r, w')
        /\ Result.telegram r = None).
Proof.
  intros Ho. split.
  - rewrite searchWithFilter_run, Ho. eexists _, _. split; [reflexivity|].
    cbn [attemptResult foundResult Result.telegram].
    rewrite extract_recordTelegramValue.
    now destruct (recordTelegramValue c).
  - destruct (planfixSearchContact_run remote args w) as (v & w1 & _ & E).
    rewrite E. destruct (getContactUrl _); eexists _, _; split; reflexivity.
Qed.

(** ** The order of the cascade *)

Lemma Tries_ext remote cs (m1 m2 : Vars -> M Vars) :
  (forall v w, m1 v w = m2 v w) -> Tries remote cs m1 -> Tries remote cs m2.
Proof.
  intros E H v w. destruct (H v w) as (v' & w' & k & R & rest).
  exists v', w', k. rewrite <- E. auto.
Qed.

Lemma Tries_ret remote : Tries remote [] (fun v => ret v).
Proof.
  intros v w. exists v, w, O. cbn. rewrite app_nil_r.
  repeat split; auto. intros H. inversion H.
Qed.

Lemma Tries_attemptUnlessFound remote o :
  Tries remote (defined o) (attemptUnlessFound remote o).
Proof.
  destruct o as [f|]; [|apply Tries_ret].
  intros v w. unfold attemptUnlessFound.
  destruct (truthyNum (contactId v)) eqn:T; cbn [negb].
  - exists v, w, O. cbn. rewrite app_nil_r. repeat split; auto; lia.
  - rewrite searchAndAssign_run. cbv zeta. eexists _, _, 1%nat.
    split; [reflexivity|]. cbn [defined length firstn map].
    repeat split; try lia; try discriminate.
    intros _. right. exists (calls w), (requestFor f). auto.
Qed.

Lemma Tries_guarded remote (g : bool) o :
  Tries remote (if g then defined o else [])
    (fun v => if g then attemptUnlessFound remote o v else ret v).
Proof.
  destruct g; [apply Tries_attemptUnlessFound | apply Tries_ret].
Qed.

Lemma Tries_seq remote c1 c2 (m1 m2 : Vars -> M Vars) :
  Tries remote c1 m1 -> Tries remote c2 m2 ->
  Tries remote (c1 ++ c2) (fun v => bind (m1 v) m2).
Proof.
  intros H1 H2 v w.
  destruct (H1 v w) as (v1 & w1 & k1 & R1 & L1 & C1 & I1 & F1 & S1).
  destruct (H2 v1 w1) as (v2 & w2 & k2 & R2 & L2 & C2 & I2 & F2 & S2).
  rewrite (bind_normal _ _ _ _ _ R1), R2.
  destruct (Nat.eq_dec k1 (length c1)) as [E|NE].
  - subst k1. rewrite firstn_all in C1.
    exists v2, w2, (length c1 + k2)%nat. split; [reflexivity|].
    rewrite length_app, firstn_app_2, map_app, app_assoc, <- C1.
    repeat split; auto; try lia.
    + destruct (F1 H) as [Z1 E1]. subst v1. destruct (F2 H) as [Z2 _]. lia.
    + destruct (F1 H) as [_ E1]. subst v1. now destruct (F2 H).
    + intros K. apply S2. lia.
  - assert (T1 : truthyNum (contactId v1) = true) by (apply S1; lia).
    destruct (F2 T1) as [-> ->]. cbn in C2. rewrite app_nil_r in C2.
    exists v1, w2, k1. split; [reflexivity|].
    rewrite length_app, firstn_app, C2.
    replace (k1 - length c1)%nat with O by lia. cbn [firstn].
    rewrite app_nil_r.
    repeat split; auto; try lia; now destruct (F1 H).
Qed.

Lemma telegramCrossCheck_cases args v w :
  exists v' w',
    telegramCrossCheck args v w = (Normal v', w')
    /\ calls w' = calls w
    /\ (v' = v /\ w' = w \/ v' = mkVars None None).
Proof.
  unfold telegramCrossCheck.
  destruct (Args.telegram args) as [t|]; [|now exists v, w; auto].
  destruct (contactId v) as [cid|]; [|now exists v, w; auto].
  destruct (result v) as [r|]; [|now exists v, w; auto].
  destruct (Result.telegram r) as [ft|]; [|now exists v, w; auto].
  destruct (_ && _); [|now exists v, w; auto].
  cbv zeta. destruct (negb _); [|now exists v, w; auto].
  eexists _, _. split; [reflexivity|]. auto.
Qed.

Lemma Tries_crossCheckedStage remote args name o :
  Tries remote (if hasInnerSpace name then defined o else [])
    (crossCheckedStage remote args name o).
Proof.
  unfold crossCheckedStage. destruct o as [f|].
  2: { destruct (hasInnerSpace name); apply Tries_ret. }
  destruct (hasInnerSpace name).
  2: { eapply Tries_ext; [|apply Tries_ret].
       intros v w. now rewrite andb_false_r. }
  intros v w. cbn [defined]. rewrite andb_true_r.
  destruct (truthyNum (contactId v)) eqn:T; cbn [negb].
  - exists v, w, O. cbn. rewrite app_nil_r. repeat split; auto; lia.
  - erewrite bind_normal by apply searchAndAssign_run. cbv zeta.
    destruct (telegramCrossCheck_cases args
                (mkVars (Some (Result.contactId
                                 (attemptResult (remote (length (calls w)) (requestFor f)))))
                        (Some (attemptResult (remote (length (calls w)) (requestFor f)))))
                (afterAttempt w f (remote (length (calls w)) (requestFor f))))
      as (v' & w' & R & C & Hv).
    exists v', w', 1%nat. split; [exact R|]. cbn [length firstn map].
    rewrite C. repeat split; try lia; try discriminate.
    intros _. destruct Hv as [[-> ->]| ->].
    + right. exists (calls w), (requestFor f). auto.
    + left. auto.
Qed.

Lemma Tries_attemptEach remote cs : Tries remote cs (attemptEach remote cs).
Proof.
  induction cs as [|f rest IH]; cbn [attemptEach].
  - apply Tries_ret.
  - change (f :: rest) with (defined (Some f) ++ rest).
    apply (Tries_seq remote (defined (Some f)) rest
             (attemptUnlessFound remote (Some f)) (attemptEach remote rest)).
    + apply Tries_attemptUnlessFound.
    + exact IH.
Qed.

Lemma customLoop_attemptEach remote cfs : forall v w,
  customLoop remote cfs v w = attemptEach remote cfs v w.
Proof.
  induction cfs as [|cf rest IH]; intros v w; cbn; [reflexivity|].
  unfold attemptUnlessFound. destruct (truthyNum (contactId v)) eqn:T; cbn [negb].
  - unfold bind, ret. now rewrite attemptEach_found.
  - apply bind_congr; [reflexivity | exact IH].
Qed.

Lemma Tries_customStage remote args :
  Tries remote (customFilters args) (customStage remote args).
Proof.
  eapply Tries_ext; [|apply (Tries_attemptEach remote (customFilters args))].
  intros v w. unfold customStage.
  destruct (truthyNum (contactId v)) eqn:T; cbn [negb andb].
  - now rewrite attemptEach_found.
  - destruct (customFilters args) as [|cf rest] eqn:E; [reflexivity|].
    cbn [length Nat.eqb negb]. symmetry. apply customLoop_attemptEach.
Qed.

Lemma attemptUnlessFound_found remote o v w :
  truthyNum (contactId v) = true ->
  attemptUnlessFound remote o v w = (Normal v, w).
Proof.
  intros T. unfold attemptUnlessFound. rewrite T. now destruct o.
Qed.

Lemma Tries_telegramStage remote args :
  Tries remote
    (if truthyStr (Args.telegram args)
     then defined (Filters.byTelegram (filters args))
          ++ defined (Filters.byTelegramWithAt (filters args))
          ++ defined (Filters.byTelegramOriginalCase (filters args))
          ++ defined (Filters.byTelegramOriginalCaseWithAt (filters args))
          ++ defined (Filters.byTelegramUrl (filters args))
     else [])
    (telegramStage remote args).
Proof.
  destruct (truthyStr (Args.telegram args)) eqn:G.
  2: { eapply Tries_ext; [|apply Tries_ret].
       intros v w. unfold telegramStage. now rewrite G, andb_false_r. }
  eapply Tries_ext.
  2: { apply (Tries_seq remote _ _
                (attemptUnlessFound remote (Filters.byTelegram (filters args))));
       [apply Tries_attemptUnlessFound|].
       apply (Tries_seq remote _ _
                (attemptUnlessFound remote (Filters.byTelegramWithAt (filters args))));
       [apply Tries_attemptUnlessFound|].
       apply (Tries_seq remote _ _
                (attemptUnlessFound remote
                   (Filters.byTelegramOriginalCase (filters args))));
       [apply Tries_attemptUnlessFound|].
       apply (Tries_seq remote _ _
                (attemptUnlessFound remote
                   (Filters.byTelegramOriginalCaseWithAt (filters args))));
       apply Tries_attemptUnlessFound. }
  intros v w. unfold telegramStage. rewrite G, andb_true_r.
  destruct (truthyNum (contactId v)) eqn:T; cbn [negb].
  - do 4 (erewrite bind_normal by (apply attemptUnlessFound_found; exact T)).
    now rewrite attemptUnlessFound_found.
  - apply bind_congr; [|reflexivity].
    unfold attemptUnlessFound. rewrite T.
    now destruct (Filters.byTelegram (filters args)).
Qed.

Lemma Tries_cascade remote args :
  Tries remote (candidateFilters args)
    (fun v =>
       v <- emailStage remote args v;;
       v <- phoneStage remote args v;;
       v <- nameStage remote args v;;
       v <- nameTranslatedStage remote args v;;
       v <- telegramStage remote args v;;
       customStage remote args v).
Proof.
  unfold candidateFilters. cbv zeta.
  apply (Tries_seq remote _ _ (emailStage remote args)).
  { apply Tries_guarded. }
  apply (Tries_seq remote _ _ (phoneStage remote args)).
  { apply Tries_guarded. }
  apply (Tries_seq remote _ _ (nameStage remote args)).
  { apply Tries_crossCheckedStage. }
  apply (Tries_seq remote _ _ (nameTranslatedStage remote args)).
  { apply Tries_crossCheckedStage. }
  apply (Tries_seq remote _ _ (telegramStage remote args)).
  { apply Tries_telegramStage. }
  apply Tries_customStage.
Qed.

Lemma cascade_tries remote args w :
  exists v w' k,
    cascade remote args w = (Normal v, w')
    /\ (k <= length (candidateFilters args))%nat
    /\ calls w' = calls w ++ map requestFor (firstn k (candidateFilters args))
    /\ Coherent remote w' v
    /\ ((k < length (candidateFilters args))%nat ->
        truthyNum (contactId v) = true).
Proof.
  destruct (Tries_cascade remote args (mkVars None None) w)
    as (v & w' & k & R & L & C & I & _ & S).
  exists v, w', k. repeat split; auto. apply I. left. auto.
Qed.

(** ** Further properties of the cascade *)

Lemma candidateFilters_length args :
  (length (candidateFilters args) <= 9 + length (customFilters args))%nat.
Proof.
  unfold candidateFilters. cbv zeta. rewrite !length_app.
  assert (D : forall o : option Filter.t,
             (length (match o with Some f => [f] | None => [] end) <= 1)%nat).
  { intros [f|]; cbn; lia. }
  pose proof (D (Filters.byTelegram (filters args))).
  pose proof (D (Filters.byTelegramWithAt (filters args))).
  pose proof (D (Filters.byTelegramOriginalCase (filters args))).
  pose proof (D (Filters.byTelegramOriginalCaseWithAt (filters args))).
  pose proof (D (Filters.byTelegramUrl (filters args))).
  destruct (truthyStr (Args.email args)), (truthyStr (phone args)),
    (hasInnerSpace (Args.name args)), (hasInnerSpace (Args.nameTranslated args)),
    (truthyStr (Args.telegram args));
    rewrite ?length_app; cbn [length filters Filters.byEmail Filters.byPhone
                               Filters.byName Filters.byNameTranslated]; lia.
Qed.

(** X1. The requests of a run are the first [k] candidate filters, in the
    order of the cascade: email, phone, name, translated name, the telegram
    variants, the custom-field filters. There are at most nine of them plus
    one per custom-field filter. *)
Theorem requests_follow_the_cascade_order remote args w :
  exists r w' k,
    planfixSearchContact remote args w = (Normal r, w')
    /\ calls w' = calls w ++ map requestFor (firstn k (candidateFilters args))
    /\ (k <= length (candidateFilters args))%nat
    /\ (length (candidateFilters args) <= 9 + length (customFilters args))%nat.
Proof.
  destruct (planfixSearchContact_run remote args w) as (v & w1 & C & E).
  destruct (cascade_tries remote args w) as (v' & w1' & k & C' & L & Hc & _ & _).
  rewrite C in C'. injection C' as <- <-.
  pose proof (candidateFilters_length args) as B.
  rewrite E. destruct (getContactUrl _); eexists _, _, k; auto.
Qed.

(** X2. With a URL builder that does not throw, the tool reports
    [contactId] 0 only after having sent every candidate filter. *)
Theorem not_found_only_after_every_candidate remote args w :
  (forall id, exists url, getContactUrl id = Normal url) ->
  exists r w',
    planfixSearchContact remote args w = (Normal r, w')
    /\ (Result.contactId r = 0 ->
        calls w' = calls w ++ map requestFor (candidateFilters args)).
Proof.
  intros Hurl.
  destruct (planfixSearchContact_run remote args w) as (v & w1 & C & E).
  destruct (cascade_tries remote args w) as (v' & w1' & k & C' & L & Hc & _ & S).
  rewrite C in C'. injection C' as <- <-.
  destruct (Hurl (orZero (contactId v))) as [url U]. rewrite U in E.
  eexists _, _. split; [exact E|]. cbn [Result.contactId]. intros Z.
  destruct (Nat.eq_dec k (length (candidateFilters args))) as [->|NE].
  - now rewrite firstn_all in Hc.
  - assert (T : truthyNum (contactId v) = true) by (apply S; lia).
    unfold truthyNum, orZero in *. destruct (contactId v) as [n|]; [|discriminate].
    destruct (n =? 0) eqn:N; [discriminate|]. apply Z.eqb_neq in N. contradiction.
Qed.

(** X3. A result with a [contactId] other than 0 comes from the last
    request sent: its response has a first contact, whose identifier, name
    and last name are the result's. No request follows a match, and no
    contact but the first of a response is ever returned. *)
Theorem match_comes_from_the_last_request remote args w :
  exists r w',
    planfixSearchContact remote args w = (Normal r, w')
    /\ (Result.contactId r <> 0 ->
        exists prev request contact rest,
          calls w' = prev ++ [request]
          /\ remote (length prev) request = Resolves (Some (contact :: rest))
          /\ Result.contactId r = Contact.id contact
          /\ Result.firstName r = Contact.name contact
          /\ Result.lastName r = Contact.lastname contact).
Proof.
  destruct (planfixSearchContact_run remote args w) as (v & w1 & C & E).
  destruct (cascade_tries remote args w) as (v' & w1' & k & C' & _ & _ & Co & _).
  rewrite C in C'. injection C' as <- <-.
  destruct (getContactUrl (orZero (contactId v))) as [url|e];
    eexists _, _; (split; [exact E|]); cbn [Result.contactId];
    [|intros H; now contradiction H].
  intros NZ. destruct Co as [[Hn _]|(prev & request & Hc & Hr & Hi)].
  { rewrite Hn in NZ. now contradiction NZ. }
  rewrite Hi in NZ. cbn [orZero] in NZ.
  exists prev, request.
  destruct (remote (length prev) request) as [err | [[|contact rest]|]] eqn:O;
    cbn in NZ; try (now contradiction NZ).
  exists contact, rest. rewrite Hi, Hr. cbn.
  destruct (Contact.id contact =? 0) eqn:Z0.
  - rewrite ?Z0 in NZ. now contradiction NZ.
  - auto.
Qed.

(** X4. With a URL builder that does not throw, the result never carries
    an [error], whatever the remote calls did - also when every one of them
    failed - and always carries a [url]. *)
Theorem remote_failures_never_reach_the_result remote args w :
  (forall id, exists url, getContactUrl id = Normal url) ->
  exists r w',
    planfixSearchContact remote args w = (Normal r, w')
    /\ Result.error r = None
    /\ getContactUrl (Result.contactId r) = Normal (match Result.url r with
                                                     | Some url => url
                                                     | None => ""
                                                     end)
    /\ Result.url r <> None.
Proof.
  intros Hurl.
  destruct (planfixSearchContact_run remote args w) as (v & w1 & C & E).
  destruct (Hurl (orZero (contactId v))) as [url U]. rewrite U in E.
  eexists _, _. split; [exact E|]. cbn. repeat split; auto. discriminate.
Qed.

Lemma prefix_app s t : String.prefix s (s ++ t) = true.
Proof.
  induction s as [|c s IH]; cbn; [apply prefix_empty|].
  destruct (ascii_dec c c); [exact IH | contradiction].
Qed.

(** X5. Every request of a run goes to [contact/list] with offset 0, page
    size 100, exactly one filter, and one and the same field list, which
    begins with the eight base fields. *)
Theorem every_request_has_one_filter remote args w :
  exists r w' sent,
    planfixSearchContact remote args w = (Normal r, w')
    /\ calls w' = calls w ++ sent
    /\ Forall (fun q =>
                 Request.path q = "contact/list"
                 /\ Request.offset q = 0
                 /\ Request.pageSize q = 100
                 /\ length (Request.filters q) = 1%nat
                 /\ Request.fields q = postBodyFields) sent
    /\ String.prefix "id,name,midname,lastname,email,phone,description,group"
         postBodyFields = true.
Proof.
  destruct (planfixSearchContact_sends remote args w) as (r & w' & sent & E & C & _).
  exists r, w', (map requestFor sent). split; [exact E|]. split; [exact C|]. split.
  - apply Forall_forall. intros q Hq. apply in_map_iff in Hq as (f & <- & _).
    cbn. auto.
  - unfold postBodyFields.
    destruct (configured telegramCustom); [apply prefix_app|].
    destruct (configured telegramBuiltin); [apply prefix_app|].
    reflexivity.
Qed.

(** ** Telegram: configuration and normalization *)

Lemma telegramCrossCheck_no_telegram args cid r w :
  Result.telegram r = None ->
  telegramCrossCheck args (mkVars cid (Some r)) w
  = (Normal (mkVars cid (Some r)), w).
Proof.
  intros H. unfold telegramCrossCheck. cbn [contactId result]. rewrite H.
  destruct (Args.telegram args); [|reflexivity]. now destruct cid.
Qed.

Lemma extract_unconfigured c :
  configured telegramCustom = false ->
  configured telegramBuiltin = false ->
  extractTelegramFromContact c = "".
Proof.
  intros Hc Hb. unfold extractTelegramFromContact. now rewrite Hc, Hb.
Qed.

Lemma telegramStage_unconfigured remote args v w :
  configured telegramCustom = false ->
  configured telegramBuiltin = false ->
  telegramStage remote args v w = (Normal v, w).
Proof.
  intros Hc Hb. unfold telegramStage.
  destruct (_ && _); [|reflexivity].
  cbn [Filters.byTelegram Filters.byTelegramWithAt Filters.byTelegramOriginalCase
       Filters.byTelegramOriginalCaseWithAt Filters.byTelegramUrl filters].
  unfold telegramFilter, telegramFilterWithAt. rewrite Hc, Hb.
  destruct (Args.telegram args) as [t|]; [|reflexivity].
  rewrite !andb_false_r. now destruct (JsString.truthy t).
Qed.

(** X6. When neither telegram field is configured, a supplied telegram
    plays no part: nothing is ever extracted from a record, the telegram
    stage sends nothing, and - the custom-field filters being the same -
    the run is the run of the same input without telegram. *)
Theorem unconfigured_telegram_is_ignored remote args w :
  configured telegramCustom = false ->
  configured telegramBuiltin = false ->
  (forall c, extractTelegramFromContact c = "")
  /\ (forall v u, telegramStage remote args v u = (Normal v, u))
  /\ (customFilters (withoutTelegram args) = customFilters args ->
      planfixSearchContact remote args w
      = planfixSearchContact remote (withoutTelegram args) w).
Proof.
  intros Hc Hb.
  split; [intros c; now apply extract_unconfigured|].
  split; [intros v u; now apply telegramStage_unconfigured|].
  intros Hcustom.
  assert (Hcc : forall name o v u,
             crossCheckedStage remote args name o v u
             = crossCheckedStage remote (withoutTelegram args) name o v u).
  { intros name o v u. unfold crossCheckedStage. destruct o as [f|]; [|reflexivity].
    destruct (_ && _); [|reflexivity].
    erewrite !bind_normal by apply searchAndAssign_run. cbv zeta.
    rewrite !telegramCrossCheck_no_telegram; [reflexivity| |].
    all: destruct (remote _ _) as [e | [[|c l]|]]; cbn; try reflexivity;
      now rewrite (extract_unconfigured c Hc Hb). }
  unfold planfixSearchContact, tryCatch.
  replace ((v <- cascade remote (withoutTelegram args);; finalize v) w)
    with ((v <- cascade remote args;; finalize v) w); [reflexivity|].
  apply bind_congr; [|reflexivity].
  unfold cascade.
  apply bind_congr; [reflexivity|]. intros v0 u0.
  apply bind_congr; [reflexivity|]. intros v1 u1.
  apply bind_congr; [apply Hcc|]. intros v2 u2.
  apply bind_congr; [apply Hcc|]. intros v3 u3.
  apply bind_congr.
  - rewrite (telegramStage_unconfigured remote args v3 u3 Hc Hb).
    unfold telegramStage. cbn. now rewrite andb_false_r.
  - intros v4 u4. unfold customStage. now rewrite Hcustom.
Qed.

Lemma lowerChar_idempotent c :
  JsString.lowerChar (JsString.lowerChar c) = JsString.lowerChar c.
Proof. destruct c as [[] [] [] [] [] [] [] []]; reflexivity. Qed.

Lemma toLowerCase_idempotent s :
  JsString.toLowerCase (JsString.toLowerCase s) = JsString.toLowerCase s.
Proof.
  induction s as [|c s IH]; cbn; [reflexivity|].
  now rewrite lowerChar_idempotent, IH.
Qed.

Lemma stripLeadingAt_toLowerCase s :
  JsString.stripLeadingAt (JsString.toLowerCase s)
  = JsString.toLowerCase (JsString.stripLeadingAt s).
Proof.
  destruct s as [|c s]; [reflexivity|].
  destruct c as [[] [] [] [] [] [] [] []]; reflexivity.
Qed.

Lemma stripLeadingAt_cases s :
  (exists rest, s = String "@" rest /\ JsString.stripLeadingAt s = rest
                /\ JsString.startsWith s "@" = true)
  \/ (JsString.stripLeadingAt s = s /\ JsString.startsWith s "@" = false).
Proof.
  destruct s as [|c s]; [right; auto|].
  destruct (Ascii.eqb_spec c "@") as [->|NE].
  - left. exists s. unfold JsString.startsWith. cbn -[ascii_dec].
    destruct (ascii_dec "@" "@") as [_|NE]; [|contradiction].
    now rewrite prefix_empty.
  - right. split.
    + destruct c as [[] [] [] [] [] [] [] []]; try reflexivity. contradiction.
    + unfold JsString.startsWith. cbn -[ascii_dec].
      destruct (ascii_dec "@" c) as [E|_]; [now subst c|reflexivity].
Qed.

(** X7. The normalization of a telegram handle - lowercase, one leading
    [@] stripped - gives the same for a handle and its lowercase form, the
    same with and without a leading [@], and is not changed by lowercasing
    again: the cross-check and the first filter cannot tell such handles
    apart. *)
Theorem telegram_normalization_ignores_case_and_at t :
  normalizeTelegram (JsString.toLowerCase t) = normalizeTelegram t
  /\ JsString.toLowerCase (normalizeTelegram t) = normalizeTelegram t
  /\ (JsString.startsWith t "@" = false ->
      normalizeTelegram (String "@" t) = normalizeTelegram t).
Proof.
  unfold normalizeTelegram. split; [|split].
  - now rewrite stripLeadingAt_toLowerCase, toLowerCase_idempotent.
  - apply toLowerCase_idempotent.
  - intros H. cbn [JsString.stripLeadingAt].
    destruct (stripLeadingAt_cases t) as [(rest & _ & _ & S)|[-> _]];
      [congruence | reflexivity].
Qed.

(** X8. For a telegram that is already lowercase, the original-case
    filters are the lowercase ones again: the third and fourth requests of
    the telegram stage repeat the first and the second. *)
Theorem lowercase_telegram_repeats_two_requests args t :
  Args.telegram args = Some t ->
  JsString.toLowerCase t = t ->
  Filters.byTelegramOriginalCase (filters args)
  = Filters.byTelegram (filters args)
  /\ Filters.byTelegramOriginalCaseWithAt (filters args)
     = Filters.byTelegramWithAt (filters args).
Proof.
  intros Ht Hl.
  cbn [Filters.byTelegram Filters.byTelegramWithAt Filters.byTelegramOriginalCase
       Filters.byTelegramOriginalCaseWithAt filters].
  rewrite Ht. unfold telegramFilter, telegramFilterWithAt, ensureLeadingAt.
  assert (Hs : JsString.toLowerCase (JsString.stripLeadingAt t)
               = JsString.stripLeadingAt t).
  { now rewrite <- stripLeadingAt_toLowerCase, Hl. }
  rewrite Hs. split; [reflexivity|].
  assert (He : (if JsString.startsWith t "@" then t
                else ("@" ++ t)%string)
               = ("@" ++ JsString.stripLeadingAt t)%string).
  { destruct (stripLeadingAt_cases t) as [(rest & -> & -> & ->)|[-> ->]];
      reflexivity. }
  rewrite He.
  destruct (JsString.truthy t), (configured telegramCustom),
    (configured telegramBuiltin); reflexivity.
Qed.

(** X9. A name match is kept when the telegram extracted from the record
    equals the supplied telegram, lowercased with its [@] stripped: nothing
    is logged and the contact stays in the variables. Likewise for the
    translated-name stage. *)
Theorem name_match_kept_on_equal_telegram remote args t v w c rest :
  Args.telegram args = Some t ->
  truthyNum (contactId v) = false ->
  extractTelegramFromContact c = normalizeTelegram t ->
  let kept := mkVars (Some (Contact.id c)) (Some (foundResult c)) in
  let after f := mkWorld (calls w ++ [requestFor f]) (logs w) in
  (hasInnerSpace (Args.name args) = true ->
   remote (length (calls w)) (requestFor (byNameFilter args))
   = Resolves (Some (c :: rest)) ->
   nameStage remote args v w = (Normal kept, after (byNameFilter args)))
  /\ (hasInnerSpace (Args.nameTranslated args) = true ->
      remote (length (calls w)) (requestFor (byNameTranslatedFilter args))
      = Resolves (Some (c :: rest)) ->
      nameTranslatedStage remote args v w
      = (Normal kept, after (byNameTranslatedFilter args))).
Proof.
  intros Ht Hv He kept after.
  assert (Hstage : forall name f,
             hasInnerSpace name = true ->
             remote (length (calls w)) (requestFor f) = Resolves (Some (c :: rest)) ->
             crossCheckedStage remote args name (Some f) v w
             = (Normal kept, after f)).
  { intros name f Hn Ho.
    rewrite (crossCheckedStage_hit remote args name f v w c rest Hv Hn Ho).
    unfold telegramCrossCheck. rewrite Ht.
    cbn [contactId result foundResult Result.telegram].
    unfold after, afterAttempt. cbn [attemptLogs]. rewrite app_nil_r.
    destruct (JsString.truthy (extractTelegramFromContact c)); [|reflexivity].
    destruct (_ && _); [|reflexivity]. cbv zeta.
    rewrite He. unfold normalizeTelegram. now rewrite String.eqb_refl. }
  split; intros Hn Ho; now apply Hstage.
Qed.

(** X10. When a custom telegram field is configured it decides alone: the
    built-in [telegram] attribute of a record is never read, and every
    telegram filter is of type 4101 on that field. *)
Theorem custom_telegram_field_takes_precedence args :
  configured telegramCustom = true ->
  (forall id name lastname telegram telegram' data,
      extractTelegramFromContact (Contact.make id name lastname telegram data)
      = extractTelegramFromContact (Contact.make id name lastname telegram' data))
  /\ (forall f,
        In f (defined (Filters.byTelegram (filters args))
              ++ defined (Filters.byTelegramWithAt (filters args))
              ++ defined (Filters.byTelegramOriginalCase (filters args))
              ++ defined (Filters.byTelegramOriginalCaseWithAt (filters args))
              ++ defined (Filters.byTelegramUrl (filters args))) ->
        Filter.type f = 4101 /\ Filter.field f = Some telegramCustom).
Proof.
  intros Hc. split.
  - intros. unfold extractTelegramFromContact. now rewrite Hc.
  - intros f.
    cbn [Filters.byTelegram Filters.byTelegramWithAt Filters.byTelegramOriginalCase
         Filters.byTelegramOriginalCaseWithAt Filters.byTelegramUrl filters].
    unfold telegramFilter, telegramFilterWithAt. rewrite Hc.
    destruct (Args.telegram args) as [t|]; [|intros []].
    rewrite andb_true_r. destruct (JsString.truthy t); [|intros []].
    cbn. intros [<-|[<-|[<-|[<-|[<-|[]]]]]]; auto.
Qed.

(** ** Phone, email, and the first contact of a response *)

Lemma phonePattern_not_at p :
  phonePattern p = true -> JsString.startsWith p "@" = false.
Proof.
  unfold phonePattern, JsString.startsWith. destruct p as [|c r]; [reflexivity|].
  cbn -[ascii_dec phoneChar]. intros H.
  destruct (ascii_dec "@" c) as [<-|_]; [|reflexivity].
  cbn in H. discriminate.
Qed.

(** X11. The sanitation keeps a phone exactly when it matches the pattern,
    and replaces any other by the empty string; a phone that matches the
    pattern never starts with [@], so that test decides nothing. *)
Theorem sanitizePhone_keeps_exactly_matching_phones p :
  sanitizePhone (Some p) = (if phonePattern p then Some p else Some "")
  /\ (phonePattern p = true -> JsString.startsWith p "@" = false).
Proof.
  split; [|apply phonePattern_not_at].
  unfold sanitizePhone. destruct (phonePattern p) eqn:P.
  - rewrite (phonePattern_not_at p P). cbn. now rewrite andb_false_r.
  - cbn [negb]. rewrite orb_true_r, andb_true_r.
    unfold JsString.truthy. destruct (String.eqb_spec p ""); [now subst p|reflexivity].
Qed.

(** X12. An email match short-circuits: when the response to the email
    request has a first contact with an identifier other than 0, the tool
    sends that one request only, and returns this contact with its names and
    its URL, found if the identifier is positive. *)
Theorem email_match_short_circuits remote args w c rest url :
  truthyStr (Args.email args) = true ->
  let byEmail :=
    Filter.make 4026 "equal" (option_map VString (Args.email args)) None in
  remote (length (calls w)) (requestFor byEmail) = Resolves (Some (c :: rest)) ->
  Contact.id c <> 0 ->
  getContactUrl (Contact.id c) = Normal url ->
  planfixSearchContact remote args w
  = (Normal (Result.make (Contact.id c) (Some url) (Contact.name c)
               (Contact.lastname c) None (0 <? Contact.id c) None),
     mkWorld (calls w ++ [requestFor byEmail]) (logs w)).
Proof.
  intros He byEmail Ho Hid Hurl.
  assert (T : truthyNum (Some (Contact.id c)) = true).
  { cbn. now apply negb_true_iff, Z.eqb_neq. }
  unfold planfixSearchContact, tryCatch, cascade.
  assert (E : emailStage remote args (mkVars None None) w
              = (Normal (mkVars (Some (Contact.id c)) (Some (foundResult c))),
                 mkWorld (calls w ++ [requestFor byEmail]) (logs w))).
  { unfold emailStage. rewrite He. cbn [Filters.byEmail filters attemptUnlessFound
      contactId truthyNum negb].
    rewrite searchAndAssign_run. cbv zeta. fold byEmail. rewrite Ho.
    unfold afterAttempt. cbn. now rewrite app_nil_r. }
  erewrite bind_normal.
  2: { erewrite bind_normal by exact E.
       erewrite bind_normal.
       2: { unfold phoneStage. destruct (truthyStr (phone args)); [|reflexivity].
            apply attemptUnlessFound_found. exact T. }
       erewrite bind_normal by (apply crossCheckedStage_found; exact T).
       erewrite bind_normal by (apply crossCheckedStage_found; exact T).
       erewrite bind_normal by (apply telegramStage_found; exact T).
       apply customStage_found. exact T. }
  unfold finalize, bind. cbn [contactId result orZero].
  apply Z.eqb_neq in Hid. rewrite Hid, Hurl. reflexivity.
Qed.

Lemma searchAndAssign_firstContactOnly remote f w :
  searchAndAssign (firstContactOnly remote) f w = searchAndAssign remote f w.
Proof.
  rewrite !searchAndAssign_run. cbv zeta. unfold firstContactOnly.
  now destruct (remote (length (calls w)) (requestFor f)) as [e | [[|c l]|]].
Qed.

Lemma attemptUnlessFound_firstContactOnly remote o v w :
  attemptUnlessFound (firstContactOnly remote) o v w
  = attemptUnlessFound remote o v w.
Proof.
  unfold attemptUnlessFound. destruct o as [f|]; [|reflexivity].
  destruct (negb _); [apply searchAndAssign_firstContactOnly | reflexivity].
Qed.

Lemma crossCheckedStage_firstContactOnly remote args name o v w :
  crossCheckedStage (firstContactOnly remote) args name o v w
  = crossCheckedStage remote args name o v w.
Proof.
  unfold crossCheckedStage. destruct o as [f|]; [|reflexivity].
  destruct (_ && _); [|reflexivity].
  apply bind_congr; [apply searchAndAssign_firstContactOnly | reflexivity].
Qed.

Lemma customLoop_firstContactOnly remote cfs : forall v w,
  customLoop (firstContactOnly remote) cfs v w = customLoop remote cfs v w.
Proof.
  induction cfs as [|cf rest IH]; intros v w; cbn; [reflexivity|].
  destruct (truthyNum (contactId v)); [reflexivity|].
  apply bind_congr; [apply searchAndAssign_firstContactOnly | exact IH].
Qed.

(** X13. Only the first contact of a response is read: the run against a
    remote is the run against the remote whose responses are cut down to
    their first contact. *)
Theorem only_the_first_contact_is_read remote args w :
  planfixSearchContact (firstContactOnly remote) args w
  = planfixSearchContact remote args w.
Proof.
  unfold planfixSearchContact, tryCatch.
  replace ((v <- cascade (firstContactOnly remote) args;; finalize v) w)
    with ((v <- cascade remote args;; finalize v) w); [reflexivity|].
  symmetry. apply bind_congr; [|reflexivity].
  unfold cascade.
  apply bind_congr.
  { unfold emailStage. destruct (truthyStr _);
      [apply attemptUnlessFound_firstContactOnly | reflexivity]. }
  intros v0 u0. apply bind_congr.
  { unfold phoneStage. destruct (truthyStr _);
      [apply attemptUnlessFound_firstContactOnly | reflexivity]. }
  intros v1 u1. apply bind_congr; [apply crossCheckedStage_firstContactOnly|].
  intros v2 u2. apply bind_congr; [apply crossCheckedStage_firstContactOnly|].
  intros v3 u3. apply bind_congr.
  { unfold telegramStage. destruct (_ && _); [|reflexivity].
    apply bind_congr.
    { destruct (Filters.byTelegram (filters args));
        [apply searchAndAssign_firstContactOnly | reflexivity]. }
    intros a1 b1. apply bind_congr; [apply attemptUnlessFound_firstContactOnly|].
    intros a2 b2. apply bind_congr; [apply attemptUnlessFound_firstContactOnly|].
    intros a3 b3. apply bind_congr; [apply attemptUnlessFound_firstContactOnly|].
    intros a4 b4. apply attemptUnlessFound_firstContactOnly. }
  intros v4 u4. unfold customStage. destruct (_ && _); [|reflexivity].
  apply customLoop_firstContactOnly.
Qed.

(** ** Failed calls *)












End Tool.

(** ** The claims at sample inputs *)

(** The attempt's result carries the normalized telegram of the record;
    the tool's result does not. *)
Lemma C1_witness :
  (exists r u',
      searchWithFilter builtinConfig (answersAt 0 johnDoe) emailFilter emptyWorld
      = (Normal r, u')
      /\ Result.telegram r = Some "johndoe")
  /\ (exists r w',
        planfixSearchContact builtinConfig exampleUrl noCustomFields
          (answersAt 0 johnDoe) emailOnly emptyWorld = (Normal r, w')
        /\ Result.telegram r = None).
Proof.
  exact (C1_telegram_in_attempt_result_only builtinConfig exampleUrl
           noCustomFields (answersAt 0 johnDoe) emailOnly emailFilter
           emptyWorld emptyWorld johnDoe [] eq_refl).
Defined.

(** C1 fails as stated: the email stage matches a contact whose record
    carries the telegram [@JohnDoe], and the result returned to the caller
    has no [telegram] instead of [johndoe]. *)
Lemma C1_counterexample :
  exists r w',
    planfixSearchContact builtinConfig exampleUrl noCustomFields
      (answersAt 0 johnDoe) emailOnly emptyWorld = (Normal r, w')
    /\ Result.contactId r = Contact.id johnDoe
    /\ recordTelegramValue builtinConfig johnDoe = Some "@JohnDoe"
    /\ normalizeTelegram "@JohnDoe" = "johndoe"
    /\ Result.telegram r <> Some "johndoe".
Proof.
  eexists _, _. split; [vm_compute; reflexivity|].
  repeat split; discriminate.
Qed.

(** A name match on a record whose telegram is [other] while [johndoe] was
    supplied is rejected, in either name stage. *)
Lemma C3_witness :
  nameStage builtinConfig (answersAt 0 otherJohn) namesAndTelegram
    (mkVars None None) emptyWorld
  = (Normal (mkVars None None),
     mkWorld [requestFor builtinConfig (byNameFilter namesAndTelegram)]
       [LogTelegramMismatch "johndoe" "other"])
  /\ nameTranslatedStage builtinConfig (answersAt 0 otherJohn) namesAndTelegram
       (mkVars None None) emptyWorld
     = (Normal (mkVars None None),
        mkWorld [requestFor builtinConfig (byNameTranslatedFilter namesAndTelegram)]
          [LogTelegramMismatch "johndoe" "other"]).
Proof.
  destruct (C3_name_match_rejected_on_telegram_mismatch builtinConfig
              noCustomFields (answersAt 0 otherJohn) namesAndTelegram "johndoe"
              (mkVars None None) emptyWorld otherJohn [])
    as [H1 H2];
    [ reflexivity | reflexivity | reflexivity | reflexivity
    | vm_compute; discriminate | vm_compute; discriminate | ].
  split.
  - exact (proj1 (H1 eq_refl eq_refl)).
  - exact (proj1 (H2 eq_refl eq_refl)).
Defined.

(** C3 fails as stated: [johndoe] is supplied, the name stage matches a
    record from which the empty telegram is extracted, which differs from
    [johndoe], and the match is kept: contact 7 is returned as found after
    that one request. *)
Lemma C3_counterexample :
  exists r w',
    planfixSearchContact builtinConfig exampleUrl noCustomFields
      (answersAt 0 plainJohn) namesAndTelegram emptyWorld = (Normal r, w')
    /\ extractTelegramFromContact builtinConfig plainJohn
       <> normalizeTelegram "johndoe"
    /\ Result.contactId r = 7
    /\ Result.found r = true
    /\ calls w' = [requestFor builtinConfig (byNameFilter namesAndTelegram)].
Proof.
  eexists _, _. split; [vm_compute; reflexivity|].
  repeat split. vm_compute. discriminate.
Qed.

(** The test of the repository: [@SomeUser], found by the fifth request. *)
Lemma C4_witness :
  let request value :=
    Request.make "contact/list" 0 100
      [Filter.make 4226 "equal" (Some (VString value)) None]
      "id,name,midname,lastname,email,phone,description,group,telegram" in
  exists v' w',
    telegramStage builtinConfig (answersAt 4 johnDoe) telegramOnly
      (mkVars None None) emptyWorld = (Normal v', w')
    /\ calls w' =
       [ request "someuser"; request "@someuser"; request "SomeUser";
         request "@SomeUser"; request "https://t.me/SomeUser" ].
Proof.
  exact (C4_telegram_variants_in_order builtinConfig (answersAt 4 johnDoe)
           telegramOnly "@SomeUser" (mkVars None None) emptyWorld
           eq_refl eq_refl (or_intror eq_refl) eq_refl).
Defined.

(** C4 fails as stated: the response to the first telegram request
    contains a contact, whose identifier is 0, and the sequence does not
    stop there: all five requests are sent and nothing is found. *)
Lemma C4_counterexample :
  exists r w',
    planfixSearchContact builtinConfig exampleUrl noCustomFields
      (answersAt 0 contactZero) telegramOnly emptyWorld = (Normal r, w')
    /\ (forall request,
          answersAt 0 contactZero 0%nat request = Resolves (Some [contactZero]))
    /\ length (calls w') = 5%nat
    /\ Result.found r = false.
Proof.
  eexists _, _. split; [vm_compute; reflexivity|].
  repeat split.
Qed.



(** C6 fails as stated: when the URL builder throws, the [catch] block
    returns a result with no [url]. *)
Lemma C6_counterexample :
  exists r w',
    planfixSearchContact builtinConfig failingUrl noCustomFields
      (answersAt 0 johnDoe) emailOnly emptyWorld = (Normal r, w')
    /\ Result.contactId r = 0
    /\ Result.url r = None.
Proof.
  eexists _, _. split; [vm_compute; reflexivity|]. split; reflexivity.
Qed.

(** The test of the repository: the phone [@foo] is dropped. *)
Lemma C7_witness :
  truthyStr (phone badPhoneAndTelegram) = false
  /\ planfixSearchContact builtinConfig exampleUrl noCustomFields
       (answersAt 0 johnDoe) badPhoneAndTelegram emptyWorld
     = planfixSearchContact builtinConfig exampleUrl noCustomFields
         (answersAt 0 johnDoe) (withoutPhone badPhoneAndTelegram) emptyWorld.
Proof.
  destruct (C7_invalid_phone_is_dropped builtinConfig exampleUrl noCustomFields
              (answersAt 0 johnDoe) badPhoneAndTelegram "@foo" emptyWorld
              eq_refl (or_intror eq_refl))
    as (H1 & _ & _ & H4).
  split; [exact H1 | exact (H4 eq_refl)].
Defined.

(** A single-token name, a phone that fails the pattern, an empty email. *)
Lemma C9_witness :
  exists r w',
    planfixSearchContact builtinConfig exampleUrl noCustomFields
      (answersAt 0 johnDoe) nothingToSearchBy emptyWorld = (Normal r, w')
    /\ Result.contactId r = 0
    /\ Result.found r = false
    /\ calls w' = [].
Proof.
  apply (C9_nothing_to_search_by builtinConfig exampleUrl noCustomFields
           (answersAt 0 johnDoe) nothingToSearchBy emptyWorld);
    try reflexivity.
  intros p H. injection H as <-. reflexivity.
Defined.

(** A name match on a record without telegram is kept although [johndoe]
    was supplied. *)
Lemma C10_witness :
  nameStage builtinConfig (answersAt 0 plainJohn) namesAndTelegram
    (mkVars None None) emptyWorld
  = (Normal (mkVars (Some 7) (Some (foundResult builtinConfig plainJohn))),
     mkWorld [requestFor builtinConfig (byNameFilter namesAndTelegram)] [])
  /\ nameTranslatedStage builtinConfig (answersAt 0 plainJohn) namesAndTelegram
       (mkVars None None) emptyWorld
     = (Normal (mkVars (Some 7) (Some (foundResult builtinConfig plainJohn))),
        mkWorld [requestFor builtinConfig (byNameTranslatedFilter namesAndTelegram)] []).
Proof.
  destruct (C10_name_match_accepted_without_record_telegram builtinConfig
              exampleUrl noCustomFields (answersAt 0 plainJohn) namesAndTelegram
              "johndoe" (mkVars None None) emptyWorld plainJohn []
              eq_refl eq_refl eq_refl eq_refl eq_refl)
    as (_ & _ & H1 & H2).
  split.
  - exact (proj1 (H1 eq_refl eq_refl)).
  - exact (proj1 (H2 eq_refl eq_refl)).
Defined.

(** ** The further properties at sample inputs *)

(** Names and telegram, nothing found: all seven candidate filters sent. *)
Lemma not_found_only_after_every_candidate_witness :
  exists r w',
    planfixSearchContact builtinConfig exampleUrl noCustomFields findsNothing
      namesAndTelegram emptyWorld = (Normal r, w')
    /\ Result.contactId r = 0
    /\ calls w' =
       map (requestFor builtinConfig)
         (candidateFilters builtinConfig noCustomFields namesAndTelegram)
    /\ length (calls w') = 7%nat.
Proof.
  destruct (not_found_only_after_every_candidate builtinConfig exampleUrl
              noCustomFields findsNothing namesAndTelegram emptyWorld
              exampleUrl_total) as (r & w' & E & H).
  pose proof E as E'. vm_compute in E'. injection E' as Er Ew.
  assert (Z0 : Result.contactId r = 0) by (rewrite <- Er; reflexivity).
  exists r, w'. split; [exact E|]. split; [exact Z0|].
  split; [exact (H Z0) | rewrite (H Z0); reflexivity].
Defined.

(** The contact returned for an email is the first of the response to the
    request sent last. *)
Lemma match_comes_from_the_last_request_witness :
  exists r w',
    planfixSearchContact builtinConfig exampleUrl noCustomFields
      (answersAt 0 johnDoe) emailOnly emptyWorld = (Normal r, w')
    /\ Result.contactId r = 1
    /\ exists prev request contact rest,
         calls w' = prev ++ [request]
         /\ answersAt 0 johnDoe (length prev) request
            = Resolves (Some (contact :: rest))
         /\ Result.contactId r = Contact.id contact
         /\ Result.firstName r = Contact.name contact
         /\ Result.lastName r = Contact.lastname contact.
Proof.
  destruct (match_comes_from_the_last_request builtinConfig exampleUrl
              noCustomFields (answersAt 0 johnDoe) emailOnly emptyWorld)
    as (r & w' & E & H).
  pose proof E as E'. vm_compute in E'. injection E' as Er Ew.
  assert (Z1 : Result.contactId r = 1) by (rewrite <- Er; reflexivity).
  exists r, w'. split; [exact E|]. split; [exact Z1|].
  apply H. rewrite Z1. discriminate.
Defined.

(** Every call fails, and the result has no [error]. *)
Lemma remote_failures_never_reach_the_result_witness :
  exists r w',
    planfixSearchContact builtinConfig exampleUrl noCustomFields alwaysFails
      namesAndTelegram emptyWorld = (Normal r, w')
    /\ Result.error r = None
    /\ exampleUrl (Result.contactId r)
       = Normal (match Result.url r with Some url => url | None => "" end)
    /\ Result.url r <> None.
Proof.
  exact (remote_failures_never_reach_the_result builtinConfig exampleUrl
           noCustomFields alwaysFails namesAndTelegram emptyWorld
           exampleUrl_total).
Defined.

(** Without a telegram field, [johndoe] changes nothing. *)
Lemma unconfigured_telegram_is_ignored_witness :
  planfixSearchContact noTelegramConfig exampleUrl noCustomFields
    (answersAt 1 johnDoe) namesAndTelegram emptyWorld
  = planfixSearchContact noTelegramConfig exampleUrl noCustomFields
      (answersAt 1 johnDoe) (withoutTelegram namesAndTelegram) emptyWorld.
Proof.
  destruct (unconfigured_telegram_is_ignored noTelegramConfig exampleUrl
              noCustomFields (answersAt 1 johnDoe) namesAndTelegram emptyWorld
              eq_refl eq_refl) as (_ & _ & H).
  exact (H eq_refl).
Defined.

Lemma telegram_normalization_ignores_case_and_at_witness :
  normalizeTelegram "@JohnDoe" = normalizeTelegram "JohnDoe".
Proof.
  exact (proj2 (proj2 (telegram_normalization_ignores_case_and_at "JohnDoe"))
           eq_refl).
Defined.

Lemma lowercase_telegram_repeats_two_requests_witness :
  Filters.byTelegramOriginalCase (filters builtinConfig namesAndTelegram)
  = Filters.byTelegram (filters builtinConfig namesAndTelegram)
  /\ Filters.byTelegramOriginalCaseWithAt (filters builtinConfig namesAndTelegram)
     = Filters.byTelegramWithAt (filters builtinConfig namesAndTelegram).
Proof.
  exact (lowercase_telegram_repeats_two_requests builtinConfig namesAndTelegram
           "johndoe" eq_refl eq_refl).
Defined.

(** The record says [@JohnDoe], the caller [johndoe]: the match is kept. *)
Lemma name_match_kept_on_equal_telegram_witness :
  nameStage builtinConfig (answersAt 0 johnDoe) namesAndTelegram
    (mkVars None None) emptyWorld
  = (Normal (mkVars (Some 1) (Some (foundResult builtinConfig johnDoe))),
     mkWorld [requestFor builtinConfig (byNameFilter namesAndTelegram)] []).
Proof.
  exact (proj1 (name_match_kept_on_equal_telegram builtinConfig
                  (answersAt 0 johnDoe) namesAndTelegram "johndoe"
                  (mkVars None None) emptyWorld johnDoe []
                  eq_refl eq_refl eq_refl)
           eq_refl eq_refl).
Defined.

Lemma custom_telegram_field_takes_precedence_witness :
  extractTelegramFromContact customConfig
    (Contact.make 1 None None (Some "@builtin") None)
  = extractTelegramFromContact customConfig
      (Contact.make 1 None None None None).
Proof.
  exact (proj1 (custom_telegram_field_takes_precedence customConfig
                  telegramOnly eq_refl)
           1 None None (Some "@builtin") None None).
Defined.

Lemma sanitizePhone_keeps_exactly_matching_phones_witness :
  JsString.startsWith "+7 (999) 123-45-67" "@" = false.
Proof.
  exact (proj2 (sanitizePhone_keeps_exactly_matching_phones "+7 (999) 123-45-67")
           eq_refl).
Defined.

(** The first test of the repository. *)
Lemma email_match_short_circuits_witness :
  planfixSearchContact builtinConfig exampleUrl noCustomFields
    (answersAt 0 johnDoe) emailOnly emptyWorld
  = (Normal (Result.make 1 (Some "https://example.com/contact/1")
               (Some "John") (Some "Doe") None true None),
     mkWorld [requestFor builtinConfig emailFilter] []).
Proof.
  apply (email_match_short_circuits builtinConfig exampleUrl noCustomFields
           (answersAt 0 johnDoe) emailOnly emptyWorld johnDoe []
           "https://example.com/contact/1");
    [reflexivity | reflexivity | discriminate | reflexivity].
Defined.
